(** * npm-dependency-watcher: the triage pipeline of [main.go]

    A shallow embedding of [main.go] and the properties of its triage
    cycle: cutoff computation, dependents fetch, the walk over the fetched
    list, and the dispatch of each surviving package to the scanner.

    Conventions.
    - Go's [int64] is a [Z] with the wrap-around of each operation written
      out ([Int64.wrap]).
    - Go's [error] results are [option error] ([None] is [nil]); a
      [(value, error)] pair is a sum, [inl] carrying the error.
    - [fmt.Errorf] messages are kept structured: one constructor of
      [error] per format string, carrying the values that are formatted.
    - Calls that leave the process ([Client.Do], [log.Printf]) are steps of
      a state monad over the trace of events performed so far.
    - Library functions whose code is not part of the repository
      ([http.NewRequest], [json] decoding, [strconv.ParseInt], [os]) are
      fields of the [Runtime] interface. *)

From Stdlib Require Import ZArith List String Ascii Bool Lia.
From Stdlib Require Import Sorted.
Import ListNotations.

Open Scope string_scope.
Open Scope list_scope.
Open Scope Z_scope.

(** ** 64-bit signed integers *)

Module Int64.

Definition min_int : Z := - 2 ^ 63.
Definition max_int : Z := 2 ^ 63 - 1.

(** The value an [int64] holds after an operation whose exact result is [z]. *)
Definition wrap (z : Z) : Z := (z + 2 ^ 63) mod 2 ^ 64 - 2 ^ 63.

Definition add (a b : Z) : Z := wrap (a + b).
Definition sub (a b : Z) : Z := wrap (a - b).
Definition mul (a b : Z) : Z := wrap (a * b).

Definition InRange (z : Z) : Prop := min_int <= z <= max_int.

End Int64.

(** ** [time.Duration] (nanoseconds in an [int64]) *)

(** [time.Hour]. *)
Definition Hour : Z := 3600000000000.

(** [func (d Duration) Milliseconds() int64 { return int64(d) / 1e6 }] *)
Definition Milliseconds (d : Z) : Z := Z.quot d 1000000.

(** ** Data model (main.go:19-54) *)

(** A decoded JSON value, for [map[string]interface{}]. *)
#[warnings="-register-all"]
Inductive JSON : Type :=
| JNull
| JBool (b : bool)
| JNumber (n : Z)
| JString (s : string)
| JArray (items : list JSON)
| JObject (fields : list (string * JSON)).

Record Publisher := mkPublisher {
  PublisherName : string;
  Avatars : list (string * JSON)
}.

Record Date := mkDate {
  TS : Z;
  Rel : string
}.

Record Package := mkPackage {
  Name : string;
  Description : string;
  Maintainers : list string;
  PackagePublisher : Publisher;
  PackageDate : Date;
  Version : string
}.

Record Data := mkData {
  Title : string;
  Dependency : string;
  Packages : list Package
}.

(** main.go:36-38. [strings.HasPrefix(p.Name, "@")]. *)
Definition IsScoped (p : Package) : bool := String.prefix "@" (Name p).

(** ** HTTP values *)

Record URL := mkURL {
  Scheme : string;
  Host : string;
  Path : string
}.

(** What [%s] prints for a [*url.URL]. *)
Definition URL_String (u : URL) : string :=
  (Scheme u ++ "://" ++ Host u ++ Path u)%string.

Record Request := mkRequest {
  Method : string;
  ReqURL : URL;
  Header : list (string * string)
}.

(** [req.Header.Add(key, value)]. *)
Definition Header_Add (req : Request) (key value : string) : Request :=
  mkRequest (Method req) (ReqURL req) (Header req ++ [(key, value)]).

(** [ResRequest] is [res.Request]: the request that obtained this response,
    the last one when the client followed redirects. *)
Record Response := mkResponse {
  StatusCode : Z;
  Body : string;
  ResRequest : Request
}.

Definition StatusOK : Z := 200.

(** ** Errors and log lines *)

(** The message of an error returned by a library call. *)
Definition LibError := string.

Inductive error : Type :=
| ErrCreatingRequest (dependency : string) (cause : LibError)
    (* "creating request for dependency %s: %w"   main.go:59, 82 *)
| ErrSendingToScanner (packageName : string) (cause : LibError)
    (* "sending to scanner: %s: %w"               main.go:65 *)
| ErrUnexpectedStatus (code : Z) (url : string)
    (* "unexpected status code %d from %s"        main.go:68, 92 *)
| ErrLoginRedirect
    (* "api key is incorrect. bot was redirected to /login"  main.go:72 *)
| ErrDoingRequest (url : string) (cause : LibError)
    (* "doing request for %s: %w"                 main.go:89 *)
| ErrDecodingResponse (url : string) (cause : LibError)
    (* "decoding response from %s: %w"            main.go:97 *)
| ErrWantedDependency (wanted got : string)
    (* "wanted dependency for %s, got %s"         main.go:100 *)
| ErrZeroDependencies (target : string)
    (* "returned 0 dependencies for %s"           main.go:103 *)
| ErrReadingConfig (cause : LibError)
    (* "reading config: %w"                       main.go:132 *)
| ErrUnmarshallingConfig (cause : LibError)
    (* "unmarshalling config: %w"                 main.go:137 *)
| ErrApiKeyNotSet       (* main.go:140 *)
| ErrIntervalNotSet     (* main.go:143 *)
| ErrTargetNotSet       (* main.go:146 *)
| ErrLibrary (cause : LibError).
    (* a library error handed to log.Fatal as it is, main.go:165 *)

Inductive LogLine : Type :=
| LogSentToScanner (packageName : string)
    (* "sent to scanner: %s"                      main.go:74 *)
| LogGettingDependencies (target : string)
    (* "getting dependencies for %s"              main.go:79 *)
| LogInitialised (target : string)
    (* "initialised with dependency target `%s`"  main.go:162 *)
| LogNowCutoff (now cutoff : Z).
    (* "now: %d cutoff: %s"                       main.go:185 *)

(** ** The world: the trace of what the process has done, oldest first *)

Inductive Event : Type :=
| EvLog (line : LogLine)
| EvDo (req : Request).

Definition World := list Event.

(** [http.Client]: what [Do] answers to a request, given everything that
    happened before (the network is free to answer each call differently). *)
Definition HTTPClient := World -> Request -> LibError + Response.

(** main.go:19-24. *)
Record Config := mkConfig {
  ApiKey : string;
  IntervalHrs : string;
  Target : string;
  Client : HTTPClient
}.

(** The fields [json.Unmarshal] fills in; [Client] is set by [main]. *)
Record ConfigFile := mkConfigFile {
  FileApiKey : string;
  FileIntervalHrs : string;
  FileTarget : string
}.

(** ** Library functions used by [main.go] *)

Class Runtime := {
  (** [http.NewRequest(method, url, nil)] *)
  http_NewRequest : string -> string -> LibError + Request;
  (** [json.NewDecoder(body).Decode(&d)] for [d : Data] *)
  json_DecodeData : string -> LibError + Data;
  (** [json.Unmarshal(b, &config)] *)
  json_UnmarshalConfig : string -> LibError + ConfigFile;
  (** [strconv.ParseInt(s, 10, 64)] *)
  strconv_ParseInt : string -> LibError + Z;
  (** [os.Getenv] *)
  os_Getenv : string -> string;
  (** [os.ReadFile] *)
  os_ReadFile : string -> LibError + string
}.

(** ** The state monad of effects *)

Definition M (A : Type) : Type := World -> A * World.

Definition ret {A} (a : A) : M A := fun w => (a, w).

Definition bind {A B} (m : M A) (k : A -> M B) : M B :=
  fun w => let (a, w') := m w in k a w'.

Notation "x <- c1 ;; c2" := (bind c1 (fun x => c2))
  (at level 61, c1 at next level, right associativity).

(** [log.Printf]. *)
Definition logPrintf (line : LogLine) : M unit :=
  fun w => (tt, w ++ [EvLog line]).

(** [c.Client.Do(req)]. *)
Definition Client_Do (c : Config) (req : Request) : M (LibError + Response) :=
  fun w => (Client c w req, w ++ [EvDo req]).

Section Pipeline.

Context {rt : Runtime}.

Definition scannerURL : string :=
  "https://dprk-research.kmsec.uk/api/scanner/analyse/package/".

Definition dependedURL : string :=
  "https://www.npmjs.com/browse/depended/".

(** main.go:56-76. *)
Definition sendToScanner (c : Config) (packageName : string) : M (option error) :=
  match http_NewRequest "GET" (scannerURL ++ packageName)%string with
  | inl err => ret (Some (ErrCreatingRequest packageName err))
  | inr req =>
      let req := Header_Add req "accept" "application/json" in
      let req := Header_Add req "authorization" (ApiKey c) in
      r <- Client_Do c req ;;
      match r with
      | inl err => ret (Some (ErrSendingToScanner packageName err))
      | inr res =>
          if negb (StatusCode res =? StatusOK) then
            ret (Some (ErrUnexpectedStatus (StatusCode res)
                         (URL_String (ReqURL (ResRequest res)))))
          else if (Path (ReqURL (ResRequest res)) =? "/login")%string then
            ret (Some ErrLoginRedirect)
          else
            _ <- logPrintf (LogSentToScanner packageName) ;;
            ret None
      end
  end.

(** What one iteration of the loop of main.go:106-119 does with [p] before
    any call is made: lines 107-112. *)
Inductive Step : Type := Break | Continue | Send.

Definition loopStep (p : Package) (cutoff : Z) : Step :=
  if TS (PackageDate p) <? cutoff then Break
  else if IsScoped p then Continue
  else Send.

(** main.go:105-120: the loop over [d.Packages] and the final [return nil].
    The counter [triaged] is written and never read. *)
Fixpoint triageLoop (c : Config) (packages : list Package) (cutoff : Z)
  : M (option error) :=
  match packages with
  | [] => ret None
  | p :: rest =>
      match loopStep p cutoff with
      | Break => ret None
      | Continue => triageLoop c rest cutoff
      | Send =>
          err <- sendToScanner c (Name p) ;;
          match err with
          | Some e => ret (Some e)
          | None => triageLoop c rest cutoff
          end
      end
  end.

(** The request of main.go:80-86, once [http.NewRequest] has built [req]. *)
Definition dependedRequest (req : Request) : Request :=
  let req := Header_Add req "accept" "application/json" in
  let req := Header_Add req "x-spiferack" "1" in
  Header_Add req "user-agent" "dprk-hunter (dependencies)".

(** main.go:99-104: the two checks on the decoded response. *)
Definition checkData (c : Config) (d : Data) : error + list Package :=
  if negb (Dependency d =? Target c)%string then
    inl (ErrWantedDependency (Target c) (Dependency d))
  else if (Z.of_nat (List.length (Packages d)) =? 0) then
    inl (ErrZeroDependencies (Target c))
  else inr (Packages d).

(** main.go:79-104: everything [triageDependencies] does before its loop;
    the result is the error it returns, or the [d.Packages] it goes on with. *)
Definition fetchDependents (c : Config) : M (error + list Package) :=
  _ <- logPrintf (LogGettingDependencies (Target c)) ;;
  match http_NewRequest "GET" (dependedURL ++ Target c)%string with
  | inl err => ret (inl (ErrCreatingRequest (Target c) err))
  | inr req =>
      let req := dependedRequest req in
      r <- Client_Do c req ;;
      match r with
      | inl err => ret (inl (ErrDoingRequest (URL_String (ReqURL req)) err))
      | inr res =>
          if negb (StatusCode res =? StatusOK) then
            ret (inl (ErrUnexpectedStatus (StatusCode res)
                        (URL_String (ReqURL (ResRequest res)))))
          else
            match json_DecodeData (Body res) with
            | inl err =>
                ret (inl (ErrDecodingResponse
                            (URL_String (ReqURL (ResRequest res))) err))
            | inr d => ret (checkData c d)
            end
      end
  end.

(** main.go:78-121. *)
Definition triageDependencies (c : Config) (cutoff : Z) : M (option error) :=
  r <- fetchDependents c ;;
  match r with
  | inl e => ret (Some e)
  | inr packages => triageLoop c packages cutoff
  end.

(** The loop of main.go:106-119 without its calls: the positions and
    records for which an iteration reaches the call of line 113. *)
Fixpoint triageWalkFrom (i : nat) (packages : list Package) (cutoff : Z)
  : list (nat * Package) :=
  match packages with
  | [] => []
  | p :: rest =>
      match loopStep p cutoff with
      | Break => []
      | Continue => triageWalkFrom (S i) rest cutoff
      | Send => (i, p) :: triageWalkFrom (S i) rest cutoff
      end
  end.

Definition triageWalk (packages : list Package) (cutoff : Z) : list Package :=
  map snd (triageWalkFrom 0 packages cutoff).

(** main.go:183: [now - time.Hour.Milliseconds()*interval], in [int64]. *)
Definition computeCutoff (now interval : Z) : Z :=
  Int64.sub now (Int64.mul (Milliseconds Hour) interval).

(** How a cycle ends. [Failed] is the [log.Fatal(err)] of main.go:188. *)
Inductive CycleEnd : Type :=
| Done
| Failed (e : error).

Definition cycleEnd (err : option error) : CycleEnd :=
  match err with
  | None => Done
  | Some e => Failed e
  end.

(** main.go:181-190: the scheduled function, [now] being what
    [time.Now().UnixMilli()] returned. *)
Definition cycle (c : Config) (interval now : Z) : M CycleEnd :=
  let cutoff := computeCutoff now interval in
  _ <- logPrintf (LogNowCutoff now cutoff) ;;
  err <- triageDependencies c cutoff ;;
  ret (cycleEnd err).

(** main.go:123-149. The result is the configuration read from the file;
    [main] adds the HTTP client (main.go:159). *)
Definition LoadConfig : error + ConfigFile :=
  let configPath :=
    if negb (os_Getenv "DOCKER" =? "")%string
    then "/var/run/secrets/.config" else ".config" in
  match os_ReadFile configPath with
  | inl err => inl (ErrReadingConfig err)
  | inr b =>
      match json_UnmarshalConfig b with
      | inl err => inl (ErrUnmarshallingConfig err)
      | inr config =>
          if (FileApiKey config =? "")%string then inl ErrApiKeyNotSet
          else if (FileIntervalHrs config =? "")%string then inl ErrIntervalNotSet
          else if (FileTarget config =? "")%string then inl ErrTargetNotSet
          else inr config
      end
  end.

(** Where [main] stands once main.go:155-166 have run: stopped by
    [log.Fatal], or holding the configuration, the parsed interval and the
    schedule it hands to the scheduler of main.go:181. The scheduler itself
    ([cron.New], [Start], [Add]) is a library and is not modelled. *)
Inductive Startup : Type :=
| Fatal (e : error)
| Ready (c : Config) (interval : Z) (schedule : string).

Definition startup (client : HTTPClient) : M Startup :=
  match LoadConfig with
  | inl e => ret (Fatal e)
  | inr f =>
      let config :=
        mkConfig (FileApiKey f) (FileIntervalHrs f) (FileTarget f) client in
      _ <- logPrintf (LogInitialised (Target config)) ;;
      match strconv_ParseInt (IntervalHrs config) with
      | inl err => ret (Fatal (ErrLibrary err))
      | inr interval =>
          ret (Ready config interval
                 ("52 */" ++ IntervalHrs config ++ " * * *")%string)
      end
  end.

(** ** The specification's vocabulary *)

(** The records of [packages] before the first one published before
    [cutoff]. *)
Fixpoint untilOlder (cutoff : Z) (packages : list Package) : list Package :=
  match packages with
  | [] => []
  | p :: rest =>
      if TS (PackageDate p) <? cutoff then [] else p :: untilOlder cutoff rest
  end.

(** [selectForScan] as the specification words it: scan in input order,
    stop for good at the first record older than the cutoff, leave out the
    records whose name begins with an at sign, keep the others in order. *)
Definition selectForScan (packages : list Package) (cutoff : Z) : list Package :=
  filter (fun p => negb (String.prefix "@" (Name p))) (untilOlder cutoff packages).

(** The specification's fail-fast dispatch of a selection: one call at a
    time, in order, the first failure ending it. *)
Fixpoint dispatchInOrder (c : Config) (names : list string) : M (option error) :=
  match names with
  | [] => ret None
  | n :: rest =>
      err <- sendToScanner c n ;;
      match err with
      | Some e => ret (Some e)
      | None => dispatchInOrder c rest
      end
  end.

(** Every dispatch of [names], made in order from world [w], succeeded, and
    left the world [w']. *)
Inductive AllDispatched (c : Config) : list string -> World -> World -> Prop :=
| AllDispatched_nil : forall w, AllDispatched c [] w w
| AllDispatched_cons : forall n rest w w1 w2,
    sendToScanner c n w = (None, w1) ->
    AllDispatched c rest w1 w2 ->
    AllDispatched c (n :: rest) w w2.

(** The specification's taxonomy of failures (its section 7). *)
Inductive FetchError : Type :=
| FetchTransport
| FetchUnexpectedStatus (code : Z)
| FetchDecode
| FetchMismatch
| FetchEmpty.

Inductive ScanOutcome : Type :=
| Success
| ScanTransport
| ScanUnexpectedStatus (code : Z)
| AuthRedirect.

(** The [FetchError] an error of [triageDependencies] stands for, if any. *)
Definition fetchErrorOf (e : error) : option FetchError :=
  match e with
  | ErrDoingRequest _ _ => Some FetchTransport
  | ErrUnexpectedStatus code _ => Some (FetchUnexpectedStatus code)
  | ErrDecodingResponse _ _ => Some FetchDecode
  | ErrWantedDependency _ _ => Some FetchMismatch
  | ErrZeroDependencies _ => Some FetchEmpty
  | _ => None
  end.

(** The [ScanOutcome] a result of [sendToScanner] stands for, if any. *)
Definition scanOutcomeOf (r : option error) : option ScanOutcome :=
  match r with
  | None => Some Success
  | Some (ErrSendingToScanner _ _) => Some ScanTransport
  | Some (ErrUnexpectedStatus code _) => Some (ScanUnexpectedStatus code)
  | Some ErrLoginRedirect => Some AuthRedirect
  | Some _ => None
  end.

(** The request [sendToScanner] hands to the client for [packageName]
    (main.go:57-62), when [http.NewRequest] builds one. *)
Definition scannerRequest (c : Config) (packageName : string) : option Request :=
  match http_NewRequest "GET" (scannerURL ++ packageName)%string with
  | inl _ => None
  | inr req =>
      Some (Header_Add (Header_Add req "accept" "application/json")
              "authorization" (ApiKey c))
  end.

(** The requests the dispatches of [names] hand to the client. *)
Definition scannerRequests (c : Config) (names : list string) : list Request :=
  flat_map (fun n => match scannerRequest c n with
                     | Some q => [q]
                     | None => []
                     end) names.

(** The specification's contract of the dependents fetch (its section 4.2),
    from world [w]: the five failures and the success, each with the world
    it leaves. The request is the one of main.go:80-86. *)
Inductive FetchSpec (c : Config) (w : World)
  : error + list Package -> World -> Prop :=
| FetchSpec_Transport : forall req err,
    http_NewRequest "GET" (dependedURL ++ Target c)%string = inr req ->
    Client c (w ++ [EvLog (LogGettingDependencies (Target c))])
      (dependedRequest req) = inl err ->
    FetchSpec c w
      (inl (ErrDoingRequest (URL_String (ReqURL (dependedRequest req))) err))
      (w ++ [EvLog (LogGettingDependencies (Target c)); EvDo (dependedRequest req)])
| FetchSpec_UnexpectedStatus : forall req res,
    http_NewRequest "GET" (dependedURL ++ Target c)%string = inr req ->
    Client c (w ++ [EvLog (LogGettingDependencies (Target c))])
      (dependedRequest req) = inr res ->
    StatusCode res <> StatusOK ->
    FetchSpec c w
      (inl (ErrUnexpectedStatus (StatusCode res)
              (URL_String (ReqURL (ResRequest res)))))
      (w ++ [EvLog (LogGettingDependencies (Target c)); EvDo (dependedRequest req)])
| FetchSpec_Decode : forall req res err,
    http_NewRequest "GET" (dependedURL ++ Target c)%string = inr req ->
    Client c (w ++ [EvLog (LogGettingDependencies (Target c))])
      (dependedRequest req) = inr res ->
    StatusCode res = StatusOK ->
    json_DecodeData (Body res) = inl err ->
    FetchSpec c w
      (inl (ErrDecodingResponse (URL_String (ReqURL (ResRequest res))) err))
      (w ++ [EvLog (LogGettingDependencies (Target c)); EvDo (dependedRequest req)])
| FetchSpec_Mismatch : forall req res d,
    http_NewRequest "GET" (dependedURL ++ Target c)%string = inr req ->
    Client c (w ++ [EvLog (LogGettingDependencies (Target c))])
      (dependedRequest req) = inr res ->
    StatusCode res = StatusOK ->
    json_DecodeData (Body res) = inr d ->
    Dependency d <> Target c ->
    FetchSpec c w
      (inl (ErrWantedDependency (Target c) (Dependency d)))
      (w ++ [EvLog (LogGettingDependencies (Target c)); EvDo (dependedRequest req)])
| FetchSpec_Empty : forall req res d,
    http_NewRequest "GET" (dependedURL ++ Target c)%string = inr req ->
    Client c (w ++ [EvLog (LogGettingDependencies (Target c))])
      (dependedRequest req) = inr res ->
    StatusCode res = StatusOK ->
    json_DecodeData (Body res) = inr d ->
    Dependency d = Target c ->
    Packages d = [] ->
    FetchSpec c w
      (inl (ErrZeroDependencies (Target c)))
      (w ++ [EvLog (LogGettingDependencies (Target c)); EvDo (dependedRequest req)])
| FetchSpec_Success : forall req res d,
    http_NewRequest "GET" (dependedURL ++ Target c)%string = inr req ->
    Client c (w ++ [EvLog (LogGettingDependencies (Target c))])
      (dependedRequest req) = inr res ->
    StatusCode res = StatusOK ->
    json_DecodeData (Body res) = inr d ->
    Dependency d = Target c ->
    Packages d <> [] ->
    FetchSpec c w (inr (Packages d))
      (w ++ [EvLog (LogGettingDependencies (Target c)); EvDo (dependedRequest req)]).

(** The requests handed to [Client.Do] in a trace, oldest first. *)
Fixpoint requestsOf (w : World) : list Request :=
  match w with
  | [] => []
  | EvDo req :: rest => req :: requestsOf rest
  | EvLog _ :: rest => requestsOf rest
  end.

(** The names logged as sent to the scanner in a trace, oldest first. *)
Fixpoint sentOf (w : World) : list string :=
  match w with
  | [] => []
  | EvLog (LogSentToScanner n) :: rest => n :: sentOf rest
  | _ :: rest => sentOf rest
  end.

End Pipeline.

(** ** Concrete library behaviour and scenarios

    A [Runtime] that computes, for running the model on concrete inputs. *)

Module Fixture.

(** [strconv.ParseInt(s, 10, 64)]: an optional sign, then decimal digits
    only; a value outside [int64] is an error. *)
Definition digitOf (ch : ascii) : option Z :=
  let n := Z.of_nat (nat_of_ascii ch) in
  if (48 <=? n) && (n <=? 57) then Some (n - 48) else None.

Fixpoint parseDigits (s : string) (acc : Z) : option Z :=
  match s with
  | EmptyString => Some acc
  | String ch rest =>
      match digitOf ch with
      | Some d => parseDigits rest (10 * acc + d)
      | None => None
      end
  end.

Definition parseInt (s : string) : LibError + Z :=
  match s with
  | EmptyString => inl "invalid syntax"
  | String ch rest =>
      let neg := Ascii.eqb ch "-" in
      let digits := if neg || Ascii.eqb ch "+" then rest else s in
      match digits with
      | EmptyString => inl "invalid syntax"
      | _ =>
          match parseDigits digits 0 with
          | None => inl "invalid syntax"
          | Some un =>
              if neg then
                if un <=? 2 ^ 63 then inr (- un) else inl "value out of range"
              else
                if un <=? 2 ^ 63 - 1 then inr un else inl "value out of range"
          end
      end
  end.

(** [url.Parse] refuses a URL that holds an ASCII control character. *)
Definition isControl (ch : ascii) : bool :=
  let n := nat_of_ascii ch in ((n <? 32) || (n =? 127))%nat.

Fixpoint hasControl (s : string) : bool :=
  match s with
  | EmptyString => false
  | String ch rest => isControl ch || hasControl rest
  end.

Definition parseURL (s : string) : URL :=
  match index 0 "://" s with
  | Some i =>
      let rest := substring (i + 3) (String.length s - (i + 3)) s in
      match index 0 "/" rest with
      | Some j =>
          mkURL (substring 0 i s) (substring 0 j rest)
                (substring j (String.length rest - j) rest)
      | None => mkURL (substring 0 i s) rest ""
      end
  | None => mkURL "" "" s
  end.

Definition newRequest (method url : string) : LibError + Request :=
  if hasControl url then inl "net/url: invalid control character in URL"
  else inr (mkRequest method (parseURL url) []).

(** A runtime whose registry bodies decode by [decode] and whose
    configuration file holds [file]. *)
Definition runtime (decode : string -> LibError + Data) (file : ConfigFile)
  : Runtime :=
  {| http_NewRequest := newRequest;
     json_DecodeData := decode;
     json_UnmarshalConfig := fun _ => inr file;
     strconv_ParseInt := parseInt;
     os_Getenv := fun _ => "";
     os_ReadFile := fun path =>
       if (path =? ".config")%string then inr "{}" else inl "no such file" |}.

Definition pkg (name : string) (ts : Z) : Package :=
  mkPackage name "" [] (mkPublisher "" []) (mkDate ts "") "".

(** The body ["deps"] decodes to a response for [target] listing [packages]. *)
Definition decodeAs (target : string) (packages : list Package) (body : string)
  : LibError + Data :=
  if (body =? "deps")%string then inr (mkData "" target packages)
  else inl "invalid character".

(** A client: the registry answers [registry]; the scanner answers each
    package by [scanner], given the path of the request. *)
Definition client (registry : Request -> LibError + Response)
  (scanner : string -> Request -> LibError + Response) : HTTPClient :=
  fun _ req =>
    if (Host (ReqURL req) =? "www.npmjs.com")%string then registry req
    else scanner (Path (ReqURL req)) req.

Definition ok (body : string) (req : Request) : LibError + Response :=
  inr (mkResponse 200 body req).

(** A response obtained after a redirect to [path] on the same host. *)
Definition redirected (code : Z) (path : string) (req : Request)
  : LibError + Response :=
  inr (mkResponse code ""
         (mkRequest (Method req)
            (mkURL (Scheme (ReqURL req)) (Host (ReqURL req)) path)
            (Header req))).

Definition file (interval : string) : ConfigFile :=
  mkConfigFile "key" interval "lodash".

(** The scenario of the walk: one scoped record, one to scan, one too old. *)
Definition walkScenario : list Package :=
  [pkg "@scope/a" 100; pkg "b" 90; pkg "c" 50].

(** The scenario of the dispatch: three records to scan, the scanner
    timing out on the second. *)
Definition xyz : list Package := [pkg "x" 30; pkg "y" 20; pkg "z" 10].

Definition failingOnY : HTTPClient :=
  client (ok "deps")
    (fun path req =>
       if (path =? "/api/scanner/analyse/package/y")%string
       then inl "context deadline exceeded" else ok "" req).

End Fixture.

(** ** Scenarios *)

(** A record published after the cutoff standing behind an older one. *)
Definition lateScenario : list Package :=
  [Fixture.pkg "a" 100; Fixture.pkg "old" 10; Fixture.pkg "late" 200].

(** A scoped record older than the cutoff, ahead of a recent one. *)
Definition scopedOldScenario : list Package :=
  [Fixture.pkg "@scope/old" 10; Fixture.pkg "new" 100].

(** A runtime and a configuration for runs against a registry that lists
    [packages] for the target, with a scanner that accepts everything. *)
Definition listing (packages : list Package) : Runtime :=
  Fixture.runtime (Fixture.decodeAs "lodash" packages) (Fixture.file "1").

Definition watcher (client : HTTPClient) : Config :=
  mkConfig "key" "1" "lodash" client.

Definition accepting : HTTPClient :=
  Fixture.client (Fixture.ok "deps") (fun _ => Fixture.ok "").

(** The registry answers with status 503. *)
Definition unavailable : HTTPClient :=
  Fixture.client (fun req => inr (mkResponse 503 "" req)) (fun _ => Fixture.ok "").

(** The scanner sends every request to its login page, which answers with
    status [code]. *)
Definition loginPage (code : Z) : HTTPClient :=
  Fixture.client (Fixture.ok "deps") (fun _ => Fixture.redirected code "/login").

(** A target that holds the control character DEL. *)
Definition controlTarget : string := String (ascii_of_nat 127) "lodash".

(** The longest negative lookback an [int64] holds. *)
Definition minLookback : Z := -9223372036854775808.

(** A lookback of three million million hours. *)
Definition hugeLookback : Z := 3000000000000.

(** A registry listing one package published at the very instant of the
    cycle, and a configuration file asking for [minLookback]. *)
Definition justPublished : list Package := [Fixture.pkg "b" 1000].

Definition minLookbackRuntime : Runtime :=
  Fixture.runtime (Fixture.decodeAs "lodash" justPublished)
    (Fixture.file "-9223372036854775808").

(** ** Further vocabulary *)

(** The order the registry is relied upon to answer in: no record is
    followed by a more recent one. *)
Definition Descending (packages : list Package) : Prop :=
  Sorted (fun p q => TS (PackageDate q) <= TS (PackageDate p)) packages.

(** A record the cycle is meant to scan: published at or after the cutoff,
    and unscoped. *)
Definition inWindow (cutoff : Z) (p : Package) : bool :=
  (cutoff <=? TS (PackageDate p)) && negb (IsScoped p).



(** The longest lookback, in hours, whose milliseconds fit below 2^63. *)
Definition maxExactLookback : Z := 2562047788015.

(** A configuration file without a key and without an interval. *)
Definition keylessFile : ConfigFile := mkConfigFile "" "" "lodash".

(** A configuration file whose interval is not a number. *)
Definition wordyFile : ConfigFile := mkConfigFile "key" "daily" "lodash".

(** ** Proof tools *)

(** URLs stay as the concatenations the source writes. *)
#[local] Arguments String.append : simpl never.

(** Unfolds the monad of a run down to the pairs it computes. *)
Ltac run := unfold bind, ret, logPrintf, Client_Do in *; simpl in *.

(** * Properties *)

(** ** Arithmetic of [int64] *)

Lemma wrap_in_range (z : Z) : Int64.InRange z -> Int64.wrap z = z.
Proof.
  unfold Int64.InRange, Int64.min_int, Int64.max_int, Int64.wrap.
  intros Hz. rewrite Z.mod_small; lia.
Qed.

Lemma wrap_sub_wrap_r (a b : Z) : Int64.wrap (a - Int64.wrap b) = Int64.wrap (a - b).
Proof.
  unfold Int64.wrap.
  set (h := 2 ^ 63). set (m := 2 ^ 64).
  assert (Hm : m = 2 * h) by reflexivity.
  clearbody m h.
  replace (a - ((b + h) mod m - h) + h) with ((a + m) - (b + h) mod m)
    by (generalize ((b + h) mod m); intros; lia).
  rewrite Zminus_mod_idemp_r.
  now replace (a + m - (b + h)) with (a - b + h) by lia.
Qed.

Lemma Milliseconds_Hour : Milliseconds Hour = 3600000.
Proof. reflexivity. Qed.

(** The cutoff is the exact difference reduced into [int64]. *)
Lemma computeCutoff_wrap (now interval : Z) :
  computeCutoff now interval = Int64.wrap (now - 3600000 * interval).
Proof.
  unfold computeCutoff, Int64.sub, Int64.mul.
  now rewrite Milliseconds_Hour, wrap_sub_wrap_r.
Qed.

Lemma computeCutoff_exact (now interval : Z) :
  Int64.InRange (now - interval * 3600000) ->
  computeCutoff now interval = now - interval * 3600000.
Proof.
  intros Hr. rewrite computeCutoff_wrap.
  replace (3600000 * interval) with (interval * 3600000) by lia.
  now apply wrap_in_range.
Qed.

(** ** The walk *)

Lemma loopStep_Break (p : Package) (cutoff : Z) :
  loopStep p cutoff = Break <-> TS (PackageDate p) < cutoff.
Proof.
  unfold loopStep.
  destruct (Z.ltb_spec (TS (PackageDate p)) cutoff); [tauto|].
  destruct (IsScoped p); split; (discriminate || lia).
Qed.

Lemma loopStep_Continue (p : Package) (cutoff : Z) :
  loopStep p cutoff = Continue <->
  cutoff <= TS (PackageDate p) /\ IsScoped p = true.
Proof.
  unfold loopStep.
  destruct (Z.ltb_spec (TS (PackageDate p)) cutoff).
  - split; [discriminate | lia].
  - destruct (IsScoped p); split; try discriminate; intuition discriminate.
Qed.

Lemma loopStep_Send (p : Package) (cutoff : Z) :
  loopStep p cutoff = Send <->
  cutoff <= TS (PackageDate p) /\ IsScoped p = false.
Proof.
  unfold loopStep.
  destruct (Z.ltb_spec (TS (PackageDate p)) cutoff).
  - split; [discriminate | lia].
  - destruct (IsScoped p); split; try discriminate; intuition discriminate.
Qed.

(** The records of the walk do not depend on where the count starts. *)
Lemma triageWalkFrom_records (i j : nat) (packages : list Package) (cutoff : Z) :
  map snd (triageWalkFrom i packages cutoff)
  = map snd (triageWalkFrom j packages cutoff).
Proof.
  revert i j. induction packages as [|p rest IH]; intros i j; simpl.
  - reflexivity.
  - destruct (loopStep p cutoff); simpl.
    + reflexivity.
    + apply IH.
    + f_equal. apply IH.
Qed.

Lemma triageWalk_cons (p : Package) (rest : list Package) (cutoff : Z) :
  triageWalk (p :: rest) cutoff =
  match loopStep p cutoff with
  | Break => []
  | Continue => triageWalk rest cutoff
  | Send => p :: triageWalk rest cutoff
  end.
Proof.
  unfold triageWalk. simpl.
  destruct (loopStep p cutoff); simpl;
    rewrite ?(triageWalkFrom_records 1 0); reflexivity.
Qed.

(** Every entry of the walk is the record at the position it carries. *)
Lemma triageWalkFrom_position (packages : list Package) (cutoff : Z) :
  forall i j q,
    In (j, q) (triageWalkFrom i packages cutoff) ->
    (i <= j)%nat /\ nth_error packages (j - i) = Some q.
Proof.
  induction packages as [|p rest IH]; intros i j q Hin; simpl in Hin.
  - contradiction.
  - destruct (loopStep p cutoff).
    + contradiction.
    + apply IH in Hin. destruct Hin as [Hle Hnth]. split; [lia|].
      replace (j - i)%nat with (S (j - S i)) by lia. exact Hnth.
    + destruct Hin as [Heq | Hin].
      * inversion Heq; subst. split; [lia|].
        now rewrite Nat.sub_diag.
      * apply IH in Hin. destruct Hin as [Hle Hnth]. split; [lia|].
        replace (j - i)%nat with (S (j - S i)) by lia. exact Hnth.
Qed.

(** The walk never goes past a record older than the cutoff. *)
Lemma triageWalkFrom_stops (packages : list Package) (cutoff : Z) :
  forall i k p,
    nth_error packages k = Some p ->
    TS (PackageDate p) < cutoff ->
    triageWalkFrom i packages cutoff = triageWalkFrom i (firstn k packages) cutoff.
Proof.
  induction packages as [|p0 rest IH]; intros i k p Hnth Hlt.
  - destruct k; discriminate.
  - destruct k as [|k]; simpl in Hnth.
    + inversion Hnth; subst. simpl.
      apply loopStep_Break in Hlt. now rewrite Hlt.
    + simpl. destruct (loopStep p0 cutoff);
        [reflexivity | | f_equal]; eapply IH; eauto.
Qed.

Lemma triageWalkFrom_bound (packages : list Package) (cutoff : Z) :
  forall i j q,
    In (j, q) (triageWalkFrom i packages cutoff) ->
    (j < i + List.length packages)%nat.
Proof.
  induction packages as [|p rest IH]; intros i j q Hin; simpl in Hin.
  - contradiction.
  - simpl. destruct (loopStep p cutoff).
    + contradiction.
    + apply IH in Hin. lia.
    + destruct Hin as [Heq | Hin].
      * inversion Heq; subst. lia.
      * apply IH in Hin. lia.
Qed.

Lemma triageWalk_selectForScan (packages : list Package) (cutoff : Z) :
  triageWalk packages cutoff = selectForScan packages cutoff.
Proof.
  unfold selectForScan.
  induction packages as [|p rest IH].
  - reflexivity.
  - rewrite triageWalk_cons. unfold loopStep, IsScoped. simpl.
    destruct (TS (PackageDate p) <? cutoff).
    + reflexivity.
    + simpl. destruct (String.prefix "@" (Name p)); simpl; now rewrite IH.
Qed.

Lemma triageWalk_unscoped (packages : list Package) (cutoff : Z) (p : Package) :
  In p (triageWalk packages cutoff) ->
  IsScoped p = false /\ cutoff <= TS (PackageDate p).
Proof.
  induction packages as [|p0 rest IH]; [contradiction|].
  rewrite triageWalk_cons.
  destruct (loopStep p0 cutoff) eqn:Hstep; [contradiction | exact IH |].
  intros [Heq | Hin]; [subst p0 | auto].
  apply loopStep_Send in Hstep. tauto.
Qed.

(** ** Traces *)

Lemma requestsOf_app (w1 w2 : World) :
  requestsOf (w1 ++ w2) = requestsOf w1 ++ requestsOf w2.
Proof.
  induction w1 as [|[line|req] rest IH]; simpl; [reflexivity | exact IH |].
  now rewrite IH.
Qed.

Lemma sentOf_app (w1 w2 : World) :
  sentOf (w1 ++ w2) = sentOf w1 ++ sentOf w2.
Proof.
  induction w1 as [|[[n|t|t|a b]|req] rest IH]; simpl; rewrite ?IH; reflexivity.
Qed.

Section Dispatch.

Context {rt : Runtime}.

(** ** One dispatch *)

(** A dispatch hands the client at most the one request built for its
    package, and logs the package exactly when it succeeds. *)
Lemma sendToScanner_trace (c : Config) (n : string) (w w' : World)
  (r : option error) :
  sendToScanner c n w = (r, w') ->
  requestsOf w' = requestsOf w ++ scannerRequests c [n]
  /\ sentOf w' = sentOf w ++ match r with None => [n] | Some _ => [] end.
Proof.
  unfold sendToScanner, scannerRequests, scannerRequest. simpl.
  destruct (http_NewRequest "GET" (scannerURL ++ n)) as [err|req]; run.
  - intros H; inversion H; subst. now rewrite !app_nil_r.
  - destruct (Client c w _) as [err|res].
    + intros H; inversion H; subst.
      rewrite requestsOf_app, sentOf_app. simpl. now rewrite !app_nil_r.
    + destruct (negb (StatusCode res =? StatusOK)).
      * intros H; inversion H; subst.
        rewrite requestsOf_app, sentOf_app. simpl. now rewrite !app_nil_r.
      * destruct (Path (ReqURL (ResRequest res)) =? "/login")%string.
        -- intros H; inversion H; subst.
           rewrite requestsOf_app, sentOf_app. simpl. now rewrite !app_nil_r.
        -- intros H; inversion H; subst.
           rewrite !requestsOf_app, !sentOf_app. simpl.
           now rewrite !app_nil_r.
Qed.

(** What a dispatch returns once the client has answered with [res]. *)
Lemma sendToScanner_response (c : Config) (n : string) (w : World)
  (q : Request) (res : Response) :
  scannerRequest c n = Some q ->
  Client c w q = inr res ->
  fst (sendToScanner c n w) =
    if negb (StatusCode res =? StatusOK) then
      Some (ErrUnexpectedStatus (StatusCode res)
              (URL_String (ReqURL (ResRequest res))))
    else if (Path (ReqURL (ResRequest res)) =? "/login")%string then
      Some ErrLoginRedirect
    else None.
Proof.
  unfold scannerRequest, sendToScanner.
  destruct (http_NewRequest "GET" (scannerURL ++ n)) as [err|req];
    [discriminate|].
  intros Hq Hres. inversion Hq; subst q. run. rewrite Hres.
  destruct (negb (StatusCode res =? StatusOK)); [reflexivity|].
  destruct (Path (ReqURL (ResRequest res)) =? "/login")%string; reflexivity.
Qed.

(** ** Dispatching a selection in order *)

Lemma triageLoop_cons (c : Config) (p : Package) (rest : list Package)
  (cutoff : Z) (w : World) :
  triageLoop c (p :: rest) cutoff w =
  match loopStep p cutoff with
  | Break => (None, w)
  | Continue => triageLoop c rest cutoff w
  | Send =>
      match sendToScanner c (Name p) w with
      | (Some e, w1) => (Some e, w1)
      | (None, w1) => triageLoop c rest cutoff w1
      end
  end.
Proof.
  simpl. destruct (loopStep p cutoff); try reflexivity.
  unfold bind, ret. now destruct (sendToScanner c (Name p) w) as [[e|] w1].
Qed.

Lemma dispatchInOrder_cons (c : Config) (n : string) (rest : list string)
  (w : World) :
  dispatchInOrder c (n :: rest) w =
  match sendToScanner c n w with
  | (Some e, w1) => (Some e, w1)
  | (None, w1) => dispatchInOrder c rest w1
  end.
Proof.
  simpl. unfold bind, ret. now destruct (sendToScanner c n w) as [[e|] w1].
Qed.

(** The loop is the in-order, fail-fast dispatch of the names of its walk. *)
Lemma triageLoop_dispatchInOrder (c : Config) (packages : list Package)
  (cutoff : Z) :
  forall w,
    triageLoop c packages cutoff w
    = dispatchInOrder c (map Name (triageWalk packages cutoff)) w.
Proof.
  induction packages as [|p rest IH]; intros w.
  - reflexivity.
  - rewrite triageLoop_cons, triageWalk_cons.
    destruct (loopStep p cutoff).
    + reflexivity.
    + apply IH.
    + simpl map. rewrite dispatchInOrder_cons.
      destruct (sendToScanner c (Name p) w) as [[e|] w1]; [reflexivity|].
      apply IH.
Qed.

Lemma AllDispatched_cons_inv (c : Config) (n : string) (rest : list string)
  (w w' : World) :
  AllDispatched c (n :: rest) w w' ->
  exists w1, sendToScanner c n w = (None, w1) /\ AllDispatched c rest w1 w'.
Proof. intros H; inversion H; subst; eauto. Qed.

Lemma dispatchInOrder_None (c : Config) (names : list string) :
  forall w w',
    dispatchInOrder c names w = (None, w') <-> AllDispatched c names w w'.
Proof.
  induction names as [|n rest IH]; intros w w'.
  - simpl. unfold ret. split.
    + intros H; inversion H; subst. constructor.
    + intros H; inversion H; subst. reflexivity.
  - rewrite dispatchInOrder_cons.
    destruct (sendToScanner c n w) as [[e|] w1] eqn:Hsend; split.
    + discriminate.
    + intros H. apply AllDispatched_cons_inv in H.
      destruct H as (w2 & Hsend2 & _). congruence.
    + intros H. econstructor; [exact Hsend|]. now apply IH.
    + intros H. apply AllDispatched_cons_inv in H.
      destruct H as (w2 & Hsend2 & Hall).
      assert (w1 = w2) by congruence. subst. now apply IH.
Qed.

Lemma dispatchInOrder_Some (c : Config) (names : list string) :
  forall w e w',
    dispatchInOrder c names w = (Some e, w') <->
    exists pre n post w1,
      names = pre ++ n :: post
      /\ AllDispatched c pre w w1
      /\ sendToScanner c n w1 = (Some e, w').
Proof.
  induction names as [|n rest IH]; intros w e w'.
  - simpl. unfold ret. split; [discriminate|].
    intros (pre & m & post & w1 & Heq & _). now destruct pre.
  - rewrite dispatchInOrder_cons.
    destruct (sendToScanner c n w) as [[e0|] w0] eqn:Hsend; split.
    + intros H; inversion H; subst.
      exists [], n, rest, w. repeat split; [constructor | exact Hsend].
    + intros (pre & m & post & w1 & Heq & Hall & Hfail).
      destruct pre as [|n0 pre]; simpl in Heq; inversion Heq; subst.
      * inversion Hall; subst. congruence.
      * apply AllDispatched_cons_inv in Hall.
        destruct Hall as (w2 & Hsend2 & _). congruence.
    + intros H. apply IH in H.
      destruct H as (pre & m & post & w1 & Heq & Hall & Hfail).
      exists (n :: pre), m, post, w1. subst rest.
      repeat split; [econstructor; eauto | exact Hfail].
    + intros (pre & m & post & w1 & Heq & Hall & Hfail).
      destruct pre as [|n0 pre]; simpl in Heq; inversion Heq; subst.
      * inversion Hall; subst. congruence.
      * apply AllDispatched_cons_inv in Hall.
        destruct Hall as (w2 & Hsend2 & Hall).
        assert (w0 = w2) by congruence. subst.
        apply IH. now exists pre, m, post, w1.
Qed.

(** Dispatches that all succeeded logged every name, and handed the client
    the request of each, in order. *)
Lemma AllDispatched_trace (c : Config) (names : list string) (w w' : World) :
  AllDispatched c names w w' ->
  sentOf w' = sentOf w ++ names
  /\ requestsOf w' = requestsOf w ++ scannerRequests c names.
Proof.
  induction 1 as [w | n rest w w1 w2 Hsend Hall [IHs IHr]].
  - now rewrite !app_nil_r.
  - apply sendToScanner_trace in Hsend. destruct Hsend as [Hr Hs].
    rewrite IHs, IHr, Hs, Hr.
    unfold scannerRequests. simpl. rewrite !app_nil_r, <- !app_assoc.
    split; reflexivity.
Qed.

(** Whatever its result, a run of dispatches has handed the client the
    requests of a prefix of the names, in order, and of nothing else. *)
Lemma dispatchInOrder_trace (c : Config) (names : list string) (w w' : World)
  (r : option error) :
  dispatchInOrder c names w = (r, w') ->
  exists attempted rest,
    names = attempted ++ rest
    /\ requestsOf w' = requestsOf w ++ scannerRequests c attempted
    /\ sentOf w' = sentOf w ++ match r with
                               | None => attempted
                               | Some _ => removelast attempted
                               end.
Proof.
  destruct r as [e|]; intros Hrun.
  - apply dispatchInOrder_Some in Hrun.
    destruct Hrun as (pre & n & post & w1 & Heq & Hall & Hfail).
    apply AllDispatched_trace in Hall. destruct Hall as [Hs Hr].
    apply sendToScanner_trace in Hfail. destruct Hfail as [Hr' Hs'].
    exists (pre ++ [n]), post. rewrite removelast_last, <- app_assoc.
    split; [exact Heq|]. rewrite Hr', Hs', Hr, Hs, app_nil_r.
    unfold scannerRequests. rewrite flat_map_app, app_assoc.
    split; reflexivity.
  - apply dispatchInOrder_None in Hrun.
    apply AllDispatched_trace in Hrun. destruct Hrun as [Hs Hr].
    exists names, []. now rewrite app_nil_r.
Qed.

End Dispatch.

(** ** The walk and the loop *)

Section Walk.

Context {rt : Runtime}.

(** C1. The walk of the triage loop yields exactly the selection the
    specification describes: the records before the first one older than
    the cutoff, without those whose name begins with an at sign, in input
    order; the loop dispatches the names of that selection, in order. On
    the scenario of the specification with cutoff 60 the selection is b
    alone. *)
Theorem triage_walk_is_selection :
  forall (packages : list Package) (cutoff : Z),
    triageWalk packages cutoff = selectForScan packages cutoff
    /\ (forall (c : Config) (w : World),
          triageLoop c packages cutoff w
          = dispatchInOrder c (map Name (selectForScan packages cutoff)) w)
    /\ map Name (triageWalk Fixture.walkScenario 60) = ["b"].
Proof.
  intros packages cutoff. split; [|split].
  - apply triageWalk_selectForScan.
  - intros c w. rewrite <- triageWalk_selectForScan.
    apply triageLoop_dispatchInOrder.
  - reflexivity.
Qed.

(** C4. When the record at position k is older than the cutoff, every
    record the walk selects stands at a position below k, whatever the
    timestamps of the records behind k: the walk, and the whole run of the
    loop, are those of the list cut before position k. *)
Theorem walk_stops_at_first_older :
  forall (c : Config) (packages : list Package) (cutoff : Z) (k : nat)
         (p : Package),
    nth_error packages k = Some p ->
    TS (PackageDate p) < cutoff ->
    (forall j q,
        In (j, q) (triageWalkFrom 0 packages cutoff) ->
        nth_error packages j = Some q /\ (j < k)%nat)
    /\ triageWalk packages cutoff = triageWalk (firstn k packages) cutoff
    /\ (forall w, triageLoop c packages cutoff w
                  = triageLoop c (firstn k packages) cutoff w).
Proof.
  intros c packages cutoff k p Hnth Hlt.
  pose proof (triageWalkFrom_stops packages cutoff 0 k p Hnth Hlt) as Hstop.
  assert (Hwalk : triageWalk packages cutoff
                  = triageWalk (firstn k packages) cutoff)
    by (unfold triageWalk; now rewrite Hstop).
  split; [|split].
  - intros j q Hin. split.
    + apply triageWalkFrom_position in Hin.
      now rewrite Nat.sub_0_r in Hin.
    + rewrite Hstop in Hin. apply triageWalkFrom_bound in Hin.
      pose proof (firstn_le_length k packages). lia.
  - exact Hwalk.
  - intros w. now rewrite !triageLoop_dispatchInOrder, Hwalk.
Qed.

(** C9. The cutoff is compared before the name is looked at: a record
    older than the cutoff ends the loop whether or not it is scoped, so a
    record is skipped for its scope only when its timestamp is at least the
    cutoff; every record the walk selects is unscoped, the loop
    dispatches the names of those records only, and every request a run
    of the loop hands to the client is the request of an unscoped name. *)
Theorem cutoff_checked_before_scope :
  forall (c : Config),
    (forall p cutoff,
        TS (PackageDate p) < cutoff -> loopStep p cutoff = Break)
    /\ (forall p rest cutoff w,
          IsScoped p = true ->
          TS (PackageDate p) < cutoff ->
          triageLoop c (p :: rest) cutoff w = (None, w))
    /\ (forall p cutoff,
          loopStep p cutoff = Continue ->
          cutoff <= TS (PackageDate p) /\ IsScoped p = true)
    /\ (forall packages cutoff,
          Forall (fun n => String.prefix "@" n = false)
            (map Name (triageWalk packages cutoff))
          /\ forall w, triageLoop c packages cutoff w
                       = dispatchInOrder c (map Name (triageWalk packages cutoff)) w)
    /\ (forall packages cutoff w r w',
          triageLoop c packages cutoff w = (r, w') ->
          exists attempted,
            Forall (fun n => String.prefix "@" n = false) attempted
            /\ requestsOf w' = requestsOf w ++ scannerRequests c attempted).
Proof.
  assert (Hunscoped : forall packages cutoff,
             Forall (fun n => String.prefix "@" n = false)
               (map Name (triageWalk packages cutoff))).
  { intros packages cutoff. apply Forall_forall. intros n Hin.
    apply in_map_iff in Hin. destruct Hin as (p & Hname & Hin).
    apply triageWalk_unscoped in Hin. subst n. apply Hin. }
  intros c. split; [|split; [|split; [|split]]].
  5:{ intros packages cutoff w r w' Hrun.
      rewrite triageLoop_dispatchInOrder in Hrun.
      apply dispatchInOrder_trace in Hrun.
      destruct Hrun as (attempted & rest & Heq & Hr & _).
      exists attempted. split; [|exact Hr].
      specialize (Hunscoped packages cutoff). rewrite Heq in Hunscoped.
      now apply Forall_app in Hunscoped. }
  - intros p cutoff Hlt. now apply loopStep_Break.
  - intros p rest cutoff w _ Hlt. rewrite triageLoop_cons.
    apply loopStep_Break in Hlt. now rewrite Hlt.
  - intros p cutoff Hstep. now apply loopStep_Continue.
  - intros packages cutoff. split.
    + apply Hunscoped.
    + intros w. apply triageLoop_dispatchInOrder.
Qed.

End Walk.

(** A recent record behind an older one is not reached. *)
Lemma walk_stops_at_first_older_witness :
  triageWalk lateScenario 60 = triageWalk (firstn 1 lateScenario) 60
  /\ nth_error lateScenario 2 = Some (Fixture.pkg "late" 200).
Proof.
  split; [|reflexivity].
  refine (proj1 (proj2 (@walk_stops_at_first_older (listing lateScenario)
            (watcher accepting) lateScenario 60 1 (Fixture.pkg "old" 10) _ _))).
  - reflexivity.
  - simpl. lia.
Defined.

(** A scoped record older than the cutoff ends the loop at once. *)
Lemma cutoff_checked_before_scope_witness :
  @triageLoop (listing scopedOldScenario) (watcher accepting)
     scopedOldScenario 60 [] = (None, []).
Proof.
  refine (proj1 (proj2 (@cutoff_checked_before_scope
            (listing scopedOldScenario) (watcher accepting))) _ _ 60 [] _ _).
  - reflexivity.
  - simpl. lia.
Defined.

Section Cycle.

Context {rt : Runtime}.

(** ** The fetch *)

Lemma checkData_cases (c : Config) (d : Data) :
  (Dependency d <> Target c
   /\ checkData c d = inl (ErrWantedDependency (Target c) (Dependency d)))
  \/ (Dependency d = Target c /\ Packages d = []
      /\ checkData c d = inl (ErrZeroDependencies (Target c)))
  \/ (Dependency d = Target c /\ Packages d <> []
      /\ checkData c d = inr (Packages d)).
Proof.
  unfold checkData.
  destruct (String.eqb_spec (Dependency d) (Target c)) as [Heq|Hne]; simpl.
  - right. destruct (Packages d) as [|p rest]; simpl.
    + left. auto.
    + right. repeat split; [exact Heq | discriminate].
  - left. auto.
Qed.

(** The fetch does what the contract says, or stops before any request
    because none could be built. *)
Lemma fetchDependents_spec (c : Config) (w : World)
  (r : error + list Package) (w' : World) :
  fetchDependents c w = (r, w') <->
  FetchSpec c w r w'
  \/ exists err,
       http_NewRequest "GET" (dependedURL ++ Target c)%string = inl err
       /\ r = inl (ErrCreatingRequest (Target c) err)
       /\ w' = w ++ [EvLog (LogGettingDependencies (Target c))].
Proof.
  unfold fetchDependents. run.
  destruct (http_NewRequest "GET" (dependedURL ++ Target c)) as [err|req]
    eqn:Hreq.
  { split.
    - intros H; inversion H; subst. right. eauto.
    - intros [H | (err' & Herr & -> & ->)].
      + inversion H; congruence.
      + congruence. }
  destruct (Client c (w ++ [EvLog (LogGettingDependencies (Target c))])
              (dependedRequest req)) as [err|res] eqn:Hdo.
  { rewrite <- app_assoc. simpl. split.
    - intros H; inversion H; subst. left. eapply FetchSpec_Transport; eassumption.
    - intros [H | (err' & Herr & _)]; [|discriminate].
      inversion H; subst; simpl; congruence. }
  rewrite <- app_assoc. simpl.
  destruct (Z.eqb_spec (StatusCode res) StatusOK) as [Hok|Hbad]; simpl.
  2:{ split.
      - intros H; inversion H; subst. left. eapply FetchSpec_UnexpectedStatus; eassumption.
      - intros [H | (err' & Herr & _)]; [|discriminate].
        inversion H; subst; simpl; congruence. }
  destruct (json_DecodeData (Body res)) as [err|d] eqn:Hdec.
  { split.
    - intros H; inversion H; subst. left. eapply FetchSpec_Decode; eassumption.
    - intros [H | (err' & Herr & _)]; [|discriminate].
      inversion H; subst; simpl; congruence. }
  destruct (checkData_cases c d)
    as [[Hne Hck] | [(Heq & Hnil & Hck) | (Heq & Hcons & Hck)]];
    rewrite Hck; split.
  - intros H; inversion H; subst. left. eapply FetchSpec_Mismatch; eassumption.
  - intros [H | (err' & Herr & _)]; [|discriminate].
    inversion H; subst; simpl; congruence.
  - intros H; inversion H; subst. left. eapply FetchSpec_Empty; eassumption.
  - intros [H | (err' & Herr & _)]; [|discriminate].
    inversion H; subst; simpl; congruence.
  - intros H; inversion H; subst. left. eapply FetchSpec_Success; eassumption.
  - intros [H | (err' & Herr & _)]; [|discriminate].
    inversion H; subst; simpl; congruence.
Qed.

(** The fetch logs one line, hands the client at most its own request, and
    sends nothing to the scanner. *)
Lemma fetchDependents_trace (c : Config) (w : World)
  (r : error + list Package) (w' : World) :
  fetchDependents c w = (r, w') ->
  sentOf w' = sentOf w
  /\ (requestsOf w' = requestsOf w
      \/ exists req,
           http_NewRequest "GET" (dependedURL ++ Target c)%string = inr req
           /\ requestsOf w' = requestsOf w ++ [dependedRequest req]).
Proof.
  intros H. apply fetchDependents_spec in H.
  destruct H as [H | (err & Herr & -> & ->)].
  - assert (Hw : exists req,
               http_NewRequest "GET" (dependedURL ++ Target c)%string = inr req
               /\ w' = w ++ [EvLog (LogGettingDependencies (Target c));
                             EvDo (dependedRequest req)])
      by (inversion H; subst; eauto).
    destruct Hw as (req & Hreq & ->).
    rewrite sentOf_app, requestsOf_app. simpl. rewrite app_nil_r.
    split; [reflexivity | right; eauto].
  - rewrite sentOf_app, requestsOf_app. simpl. rewrite !app_nil_r. auto.
Qed.

(** ** The cycle *)

Lemma triageDependencies_run (c : Config) (cutoff : Z) (w : World) :
  triageDependencies c cutoff w =
  match fetchDependents c w with
  | (inl e, w1) => (Some e, w1)
  | (inr packages, w1) => triageLoop c packages cutoff w1
  end.
Proof.
  unfold triageDependencies, bind, ret.
  now destruct (fetchDependents c w) as [[e|packages] w1].
Qed.

Lemma cycle_run (c : Config) (interval now : Z) (w : World) :
  cycle c interval now w =
  let cutoff := computeCutoff now interval in
  let (err, w') :=
    triageDependencies c cutoff (w ++ [EvLog (LogNowCutoff now cutoff)]) in
  (cycleEnd err, w').
Proof. reflexivity. Qed.

Lemma cycleEnd_Done (err : option error) : cycleEnd err = Done <-> err = None.
Proof. destruct err; simpl; split; congruence. Qed.

Lemma cycleEnd_Failed (err : option error) (e : error) :
  cycleEnd err = Failed e <-> err = Some e.
Proof. destruct err; simpl; split; congruence. Qed.

End Cycle.

(** ** Dispatch, fetch and cycle *)

Section CycleClaims.

Context {rt : Runtime}.

(** C2 (amended). When the client ends at the path /login, the dispatch is
    an authentication redirect if the status of the response is 200; with
    any other status it is an unexpected status carrying that code, the
    status being checked first. *)
Theorem login_redirect_after_ok_status :
  forall (c : Config) (n : string) (w : World) (q : Request) (res : Response),
    scannerRequest c n = Some q ->
    Client c w q = inr res ->
    Path (ReqURL (ResRequest res)) = "/login" ->
    (StatusCode res = StatusOK ->
     fst (sendToScanner c n w) = Some ErrLoginRedirect
     /\ scanOutcomeOf (fst (sendToScanner c n w)) = Some AuthRedirect)
    /\ (StatusCode res <> StatusOK ->
        scanOutcomeOf (fst (sendToScanner c n w))
        = Some (ScanUnexpectedStatus (StatusCode res))).
Proof.
  intros c n w q res Hq Hres Hpath.
  rewrite (sendToScanner_response c n w q res Hq Hres), Hpath.
  split; intros Hcode.
  - rewrite Hcode. split; reflexivity.
  - apply Z.eqb_neq in Hcode. now rewrite Hcode.
Qed.

(** C3. After a fetch that succeeded, the cycle ends in Done exactly when
    the dispatches of the selected names, made one after the other in
    selection order, all succeed (with nothing selected, at once); it ends
    in Failed exactly at the first dispatch that fails, with the error of
    that dispatch and in the world that dispatch left: the names logged as
    sent are those before it, and the client has been handed the requests
    of the names up to it and of no later one. *)
Theorem cycle_dispatch_fail_fast :
  forall (c : Config) (interval now : Z) (w w1 : World)
         (packages : list Package),
    fetchDependents c
      (w ++ [EvLog (LogNowCutoff now (computeCutoff now interval))])
    = (inr packages, w1) ->
    (forall w',
        cycle c interval now w = (Done, w') <->
        AllDispatched c
          (map Name (triageWalk packages (computeCutoff now interval))) w1 w')
    /\ (forall e w',
          cycle c interval now w = (Failed e, w') <->
          exists pre n post w2,
            map Name (triageWalk packages (computeCutoff now interval))
            = pre ++ n :: post
            /\ AllDispatched c pre w1 w2
            /\ sendToScanner c n w2 = (Some e, w'))
    /\ (forall pre n post w2 e w',
          map Name (triageWalk packages (computeCutoff now interval))
          = pre ++ n :: post ->
          AllDispatched c pre w1 w2 ->
          sendToScanner c n w2 = (Some e, w') ->
          sentOf w' = sentOf w1 ++ pre
          /\ requestsOf w' = requestsOf w1 ++ scannerRequests c (pre ++ [n])).
Proof.
  intros c interval now w w1 packages Hfetch.
  assert (Hrun : cycle c interval now w =
                 let (err, w') :=
                   dispatchInOrder c
                     (map Name (triageWalk packages (computeCutoff now interval)))
                     w1 in
                 (cycleEnd err, w')).
  { rewrite cycle_run. cbv zeta.
    now rewrite triageDependencies_run, Hfetch, triageLoop_dispatchInOrder. }
  split; [|split].
  - intros w'. rewrite Hrun, <- dispatchInOrder_None.
    destruct (dispatchInOrder c _ w1) as [err w2]. split.
    + intros H; inversion H; subst.
      match goal with Hd : cycleEnd _ = Done |- _ =>
        apply cycleEnd_Done in Hd; now subst end.
    + intros H; inversion H; subst. reflexivity.
  - intros e w'. rewrite Hrun, <- dispatchInOrder_Some.
    destruct (dispatchInOrder c _ w1) as [err w2]. split.
    + intros H; inversion H; subst.
      match goal with Hd : cycleEnd _ = Failed _ |- _ =>
        apply cycleEnd_Failed in Hd; now subst end.
    + intros H; inversion H; subst. reflexivity.
  - intros pre n post w2 e w' _ Hall Hfail.
    apply AllDispatched_trace in Hall. destruct Hall as [Hs Hr].
    apply sendToScanner_trace in Hfail. destruct Hfail as [Hr' Hs'].
    rewrite Hs', Hr', Hs, Hr, app_nil_r. split; [reflexivity|].
    unfold scannerRequests. now rewrite flat_map_app, app_assoc.
Qed.

(** C6. Once the response of the registry has been decoded, a dependency
    that differs from the target is rejected with the mismatch error, also
    when packages are listed, and an empty list of packages is rejected
    with the empty error when the dependency matches; in both cases the
    world is left with the log line and the request of the fetch alone:
    nothing is dispatched. *)
Theorem mismatch_and_empty_rejected :
  forall (c : Config) (cutoff : Z) (w : World) (req : Request)
         (res : Response) (d : Data),
    http_NewRequest "GET" (dependedURL ++ Target c)%string = inr req ->
    Client c (w ++ [EvLog (LogGettingDependencies (Target c))])
      (dependedRequest req) = inr res ->
    StatusCode res = StatusOK ->
    json_DecodeData (Body res) = inr d ->
    (Dependency d <> Target c ->
     triageDependencies c cutoff w
     = (Some (ErrWantedDependency (Target c) (Dependency d)),
        w ++ [EvLog (LogGettingDependencies (Target c));
              EvDo (dependedRequest req)])
     /\ fetchErrorOf (ErrWantedDependency (Target c) (Dependency d))
        = Some FetchMismatch)
    /\ (Dependency d = Target c ->
        Packages d = [] ->
        triageDependencies c cutoff w
        = (Some (ErrZeroDependencies (Target c)),
           w ++ [EvLog (LogGettingDependencies (Target c));
                 EvDo (dependedRequest req)])
        /\ fetchErrorOf (ErrZeroDependencies (Target c)) = Some FetchEmpty).
Proof.
  intros c cutoff w req res d Hreq Hdo Hok Hdec.
  split.
  - intros Hne. split; [|reflexivity].
    rewrite triageDependencies_run.
    assert (Hf : fetchDependents c w =
                 (inl (ErrWantedDependency (Target c) (Dependency d)),
                  w ++ [EvLog (LogGettingDependencies (Target c));
                        EvDo (dependedRequest req)])).
    { apply fetchDependents_spec. left.
      eapply FetchSpec_Mismatch; eassumption. }
    now rewrite Hf.
  - intros Heq Hnil. split; [|reflexivity].
    rewrite triageDependencies_run.
    assert (Hf : fetchDependents c w =
                 (inl (ErrZeroDependencies (Target c)),
                  w ++ [EvLog (LogGettingDependencies (Target c));
                        EvDo (dependedRequest req)])).
    { apply fetchDependents_spec. left.
      eapply FetchSpec_Empty; eassumption. }
    now rewrite Hf.
Qed.

(** C7 (amended). The fetch ends as its contract says (transport failure,
    status other than 200, body that does not decode, dependency other
    than the target, empty list, or the decoded list of packages as it was
    received), or in a sixth way: the request could not be built, and the
    fetch fails before any call to the client. A successful fetch yields
    the packages of the decoded response, unchanged. *)
Theorem fetch_outcomes :
  forall (c : Config) (w : World),
    (forall r w',
        fetchDependents c w = (r, w') <->
        FetchSpec c w r w'
        \/ exists err,
             http_NewRequest "GET" (dependedURL ++ Target c)%string = inl err
             /\ r = inl (ErrCreatingRequest (Target c) err)
             /\ w' = w ++ [EvLog (LogGettingDependencies (Target c))])
    /\ (forall packages w',
          fetchDependents c w = (inr packages, w') ->
          exists req res d,
            http_NewRequest "GET" (dependedURL ++ Target c)%string = inr req
            /\ Client c (w ++ [EvLog (LogGettingDependencies (Target c))])
                 (dependedRequest req) = inr res
            /\ json_DecodeData (Body res) = inr d
            /\ packages = Packages d).
Proof.
  intros c w. split.
  - intros r w'. apply fetchDependents_spec.
  - intros packages w' H. apply fetchDependents_spec in H.
    destruct H as [H | (err & _ & Hr & _)]; [|discriminate].
    inversion H; subst. eauto 8.
Qed.

(** C8. When the fetch fails, with whatever error, the cycle ends in
    Failed with that error, in the world the fetch left: nothing has been
    logged as sent to the scanner, and the client has been handed the
    request of the fetch at most. *)
Theorem failed_fetch_ends_cycle :
  forall (c : Config) (interval now : Z) (w w1 : World) (e : error),
    fetchDependents c
      (w ++ [EvLog (LogNowCutoff now (computeCutoff now interval))])
    = (inl e, w1) ->
    cycle c interval now w = (Failed e, w1)
    /\ sentOf w1 = sentOf w
    /\ (requestsOf w1 = requestsOf w
        \/ exists req,
             http_NewRequest "GET" (dependedURL ++ Target c)%string = inr req
             /\ requestsOf w1 = requestsOf w ++ [dependedRequest req]).
Proof.
  intros c interval now w w1 e Hfetch.
  split.
  - rewrite cycle_run. cbv zeta.
    now rewrite triageDependencies_run, Hfetch.
  - apply fetchDependents_trace in Hfetch.
    rewrite sentOf_app, requestsOf_app in Hfetch. simpl in Hfetch.
    now rewrite !app_nil_r in Hfetch.
Qed.

End CycleClaims.

(** ** The cutoff and the lookback *)

Section CutoffClaims.

Context {rt : Runtime}.

(** C5 (amended). For a non-negative lookback h such that now - h x
    3,600,000 is an [int64], the cutoff is exactly that number (the
    computation is a total function: it has no error path); the cutoff of a
    zero lookback is now; and over such lookbacks the cutoff decreases
    strictly as h grows. *)
Theorem cutoff_exact_in_range :
  (forall now h,
      0 <= h ->
      Int64.InRange (now - h * 3600000) ->
      computeCutoff now h = now - h * 3600000)
  /\ (forall now, Int64.InRange now -> computeCutoff now 0 = now)
  /\ (forall now h1 h2,
        Int64.InRange now ->
        0 <= h1 < h2 ->
        Int64.InRange (now - h2 * 3600000) ->
        computeCutoff now h2 < computeCutoff now h1).
Proof.
  split; [|split].
  - intros now h _ Hr. now apply computeCutoff_exact.
  - intros now Hr. rewrite computeCutoff_exact; [lia|].
    now replace (now - 0 * 3600000) with now by lia.
  - intros now h1 h2 Hnow Hh Hr.
    rewrite (computeCutoff_exact now h2 Hr).
    rewrite computeCutoff_exact; [lia|].
    unfold Int64.InRange in *. lia.
Qed.

(** C10 (amended). [LoadConfig] accepts a configuration exactly when its
    three strings are non-empty, and [startup] goes on with whatever
    integer the interval parses to, negative ones included. For a negative
    lookback h such that now - h x 3,600,000 is an [int64], the cutoff is
    strictly after now; so when the first record fetched is not newer than
    now, the loop ends at that record, the selection is empty, nothing is
    sent to the scanner and the cycle ends in Done. *)
Theorem negative_lookback_selects_nothing :
  (forall b f,
      os_ReadFile (if negb (os_Getenv "DOCKER" =? "")%string
                   then "/var/run/secrets/.config" else ".config") = inr b ->
      json_UnmarshalConfig b = inr f ->
      (LoadConfig = inr f <->
       FileApiKey f <> "" /\ FileIntervalHrs f <> "" /\ FileTarget f <> ""))
  /\ (forall f h client w,
        LoadConfig = inr f ->
        strconv_ParseInt (FileIntervalHrs f) = inr h ->
        startup client w
        = (Ready (mkConfig (FileApiKey f) (FileIntervalHrs f) (FileTarget f) client)
             h ("52 */" ++ FileIntervalHrs f ++ " * * *")%string,
           w ++ [EvLog (LogInitialised (FileTarget f))]))
  /\ (forall now h,
        Int64.InRange now ->
        h < 0 ->
        now - h * 3600000 <= Int64.max_int ->
        now < computeCutoff now h)
  /\ (forall c now h w w1 p rest,
        Int64.InRange now ->
        h < 0 ->
        now - h * 3600000 <= Int64.max_int ->
        fetchDependents c (w ++ [EvLog (LogNowCutoff now (computeCutoff now h))])
        = (inr (p :: rest), w1) ->
        TS (PackageDate p) <= now ->
        loopStep p (computeCutoff now h) = Break
        /\ triageWalk (p :: rest) (computeCutoff now h) = []
        /\ cycle c h now w = (Done, w1)
        /\ sentOf w1 = sentOf w).
Proof.
  assert (Hcut : forall now h,
             Int64.InRange now -> h < 0 ->
             now - h * 3600000 <= Int64.max_int ->
             now < computeCutoff now h).
  { intros now h Hnow Hh Hmax.
    rewrite computeCutoff_exact; [lia|].
    unfold Int64.InRange in *. lia. }
  split; [|split; [|split]].
  - intros b f Hread Hjson. unfold LoadConfig. rewrite Hread, Hjson.
    destruct (String.eqb_spec (FileApiKey f) "") as [Ha|Ha];
      [split; [discriminate | tauto]|].
    destruct (String.eqb_spec (FileIntervalHrs f) "") as [Hi|Hi];
      [split; [discriminate | tauto]|].
    destruct (String.eqb_spec (FileTarget f) "") as [Ht|Ht];
      [split; [discriminate | tauto]|].
    tauto.
  - intros f h client w Hload Hparse. unfold startup.
    rewrite Hload. run. now rewrite Hparse.
  - exact Hcut.
  - intros c now h w w1 p rest Hnow Hh Hmax Hfetch Hts.
    pose proof (Hcut now h Hnow Hh Hmax) as Hlt.
    assert (Hbreak : loopStep p (computeCutoff now h) = Break)
      by (apply loopStep_Break; lia).
    split; [exact Hbreak|]. split; [|split].
    + rewrite triageWalk_cons. now rewrite Hbreak.
    + rewrite cycle_run. cbv zeta.
      rewrite triageDependencies_run, Hfetch, triageLoop_cons.
      now rewrite Hbreak.
    + apply fetchDependents_trace in Hfetch. destruct Hfetch as [Hs _].
      rewrite sentOf_app in Hs. simpl in Hs. now rewrite app_nil_r in Hs.
Qed.

End CutoffClaims.

(** ** Concrete runs *)

(** The login page of the scanner answering with status 200. *)
Lemma login_redirect_after_ok_status_witness :
  scanOutcomeOf
    (fst (@sendToScanner (listing []) (watcher (loginPage 200)) "x" []))
  = Some AuthRedirect.
Proof.
  refine (proj2 (proj1 (@login_redirect_after_ok_status (listing [])
            (watcher (loginPage 200)) "x" [] _ _ _ _ _) _)).
  - reflexivity.
  - reflexivity.
  - reflexivity.
  - reflexivity.
Defined.

(** C2, as stated, fails: the login page of the scanner answering with
    status 401 makes the dispatch an unexpected status. *)
Lemma login_redirect_with_other_status :
  ~ (forall (rt : Runtime) (c : Config) (n : string) (w : World)
            (q : Request) (res : Response),
        @scannerRequest rt c n = Some q ->
        Client c w q = inr res ->
        Path (ReqURL (ResRequest res)) = "/login" ->
        scanOutcomeOf (fst (@sendToScanner rt c n w)) = Some AuthRedirect).
Proof.
  intros H.
  specialize (H (listing []) (watcher (loginPage 401)) "x" [] _ _
                eq_refl eq_refl eq_refl).
  vm_compute in H. discriminate H.
Qed.

(** The scenario of the specification: x is sent, the dispatch of y times
    out, the cycle fails and z is left alone. *)
Lemma cycle_dispatch_fail_fast_witness :
  fst (@cycle (listing Fixture.xyz) (watcher Fixture.failingOnY) 1 3600005 [])
  = Failed (ErrSendingToScanner "y" "context deadline exceeded")
  /\ sentOf (snd (@cycle (listing Fixture.xyz) (watcher Fixture.failingOnY)
                    1 3600005 []))
     = ["x"].
Proof.
  pose (rt := listing Fixture.xyz).
  pose (c := watcher Fixture.failingOnY).
  pose (w1 := snd (@fetchDependents rt c
                     [EvLog (LogNowCutoff 3600005 (computeCutoff 3600005 1))])).
  pose (w2 := snd (@sendToScanner rt c "x" w1)).
  pose (w3 := snd (@sendToScanner rt c "y" w2)).
  assert (Hall : @AllDispatched rt c ["x"] w1 w2)
    by (apply AllDispatched_cons with (w1 := w2);
        [vm_compute; reflexivity | constructor]).
  assert (Hy : @sendToScanner rt c "y" w2
               = (Some (ErrSendingToScanner "y" "context deadline exceeded"), w3))
    by (vm_compute; reflexivity).
  destruct (@cycle_dispatch_fail_fast rt c 1 3600005 [] w1 Fixture.xyz eq_refl)
    as (_ & Hfailed & Htrace).
  assert (Hrun : @cycle rt c 1 3600005 []
                 = (Failed (ErrSendingToScanner "y" "context deadline exceeded"),
                    w3)).
  { apply Hfailed. exists ["x"], "y", ["z"], w2.
    split; [reflexivity | split; assumption]. }
  fold rt c. rewrite Hrun. split; [reflexivity|].
  exact (proj1 (Htrace ["x"] "y" ["z"] w2 _ w3 eq_refl Hall Hy)).
Defined.

(** A registry answering for express when lodash is watched, and one
    answering with no package at all. *)
Lemma mismatch_and_empty_rejected_witness :
  fst (@triageDependencies
         (Fixture.runtime (Fixture.decodeAs "express" Fixture.walkScenario)
            (Fixture.file "1"))
         (watcher accepting) 60 [])
  = Some (ErrWantedDependency "lodash" "express")
  /\ fst (@triageDependencies (listing []) (watcher accepting) 60 [])
     = Some (ErrZeroDependencies "lodash").
Proof.
  split.
  - destruct (@mismatch_and_empty_rejected
                (Fixture.runtime (Fixture.decodeAs "express" Fixture.walkScenario)
                   (Fixture.file "1"))
                (watcher accepting) 60 [] _ _ _ eq_refl eq_refl eq_refl eq_refl)
      as [Hmismatch _].
    destruct Hmismatch as [Hrun _]; [discriminate|].
    now rewrite Hrun.
  - destruct (@mismatch_and_empty_rejected (listing []) (watcher accepting)
                60 [] _ _ _ eq_refl eq_refl eq_refl eq_refl)
      as [_ Hempty].
    destruct Hempty as [Hrun _]; [reflexivity | reflexivity |].
    now rewrite Hrun.
Defined.

(** C7, as stated, fails: for a target that holds a control character no
    request can be built, and the fetch fails in none of the five ways of
    its contract. *)
Lemma fetch_fails_building_request :
  ~ (forall (rt : Runtime) (c : Config) (w : World)
            (r : error + list Package) (w' : World),
        @fetchDependents rt c w = (r, w') -> @FetchSpec rt c w r w').
Proof.
  intros H.
  specialize (H (listing []) (mkConfig "key" "1" controlTarget accepting) []
                _ _ eq_refl).
  inversion H;
    match goal with
    | Hreq : http_NewRequest _ _ = inr _ |- _ => discriminate Hreq
    end.
Qed.

(** A target with a control character: the fetch fails while building its
    request. *)
Lemma fetch_outcomes_witness :
  @fetchDependents (listing []) (mkConfig "key" "1" controlTarget accepting) []
  = (inl (ErrCreatingRequest controlTarget
            "net/url: invalid control character in URL"),
     [EvLog (LogGettingDependencies controlTarget)]).
Proof.
  apply (proj1 (@fetch_outcomes (listing [])
                  (mkConfig "key" "1" controlTarget accepting) [])).
  right. eexists. repeat split; reflexivity.
Defined.

(** A registry answering with status 503. *)
Lemma failed_fetch_ends_cycle_witness :
  @cycle (listing Fixture.xyz) (watcher unavailable) 1 3600005 []
  = (Failed (ErrUnexpectedStatus 503
               "https://www.npmjs.com/browse/depended/lodash"),
     [EvLog (LogNowCutoff 3600005 5);
      EvLog (LogGettingDependencies "lodash");
      EvDo (dependedRequest
              (mkRequest "GET"
                 (mkURL "https" "www.npmjs.com" "/browse/depended/lodash") []))]).
Proof.
  refine (proj1 (@failed_fetch_ends_cycle (listing Fixture.xyz)
            (watcher unavailable) 1 3600005 [] _ _ _)).
  reflexivity.
Defined.

(** A lookback of one day. *)
Lemma cutoff_exact_in_range_witness :
  computeCutoff 1700000000000 24 = 1699913600000.
Proof.
  refine (proj1 cutoff_exact_in_range 1700000000000 24 _ _).
  - lia.
  - unfold Int64.InRange, Int64.min_int, Int64.max_int. lia.
Defined.

(** C5, as stated, fails: for [hugeLookback] the subtraction leaves
    [int64] and wraps around, to a cutoff that lies after now. *)
Lemma cutoff_wraps_for_huge_lookback :
  ~ (forall now h,
        Int64.InRange now -> Int64.InRange h -> 0 <= h ->
        computeCutoff now h = now - h * 3600000)
  /\ ~ (forall now h1 h2,
          Int64.InRange now -> Int64.InRange h1 -> Int64.InRange h2 ->
          0 <= h1 < h2 ->
          computeCutoff now h2 < computeCutoff now h1).
Proof.
  assert (Hnow : Int64.InRange 1700000000000)
    by (unfold Int64.InRange, Int64.min_int, Int64.max_int; lia).
  assert (Hzero : Int64.InRange 0)
    by (unfold Int64.InRange, Int64.min_int, Int64.max_int; lia).
  assert (Hhuge : Int64.InRange hugeLookback)
    by (unfold Int64.InRange, Int64.min_int, Int64.max_int, hugeLookback; lia).
  split; intros H.
  - specialize (H 1700000000000 hugeLookback Hnow Hhuge).
    assert (Heq : computeCutoff 1700000000000 hugeLookback
                  = 1700000000000 - hugeLookback * 3600000)
      by (apply H; unfold hugeLookback; lia).
    vm_compute in Heq. discriminate Heq.
  - specialize (H 1700000000000 0 hugeLookback Hnow Hzero Hhuge).
    assert (Hlt : computeCutoff 1700000000000 hugeLookback
                  < computeCutoff 1700000000000 0)
      by (apply H; unfold hugeLookback; lia).
    vm_compute in Hlt. discriminate Hlt.
Qed.

(** A lookback of minus one hour, and a package published just now. *)
Lemma negative_lookback_selects_nothing_witness :
  @cycle (listing justPublished) (watcher accepting) (-1) 1000 []
  = (Done,
     [EvLog (LogNowCutoff 1000 3601000);
      EvLog (LogGettingDependencies "lodash");
      EvDo (dependedRequest
              (mkRequest "GET"
                 (mkURL "https" "www.npmjs.com" "/browse/depended/lodash") []))]).
Proof.
  destruct (@negative_lookback_selects_nothing (listing justPublished))
    as (_ & _ & _ & Hcycle).
  refine (proj1 (proj2 (proj2
            (Hcycle (watcher accepting) 1000 (-1) [] _ (Fixture.pkg "b" 1000) []
               _ _ _ eq_refl _)))).
  - unfold Int64.InRange, Int64.min_int, Int64.max_int. lia.
  - lia.
  - unfold Int64.max_int. lia.
  - simpl. lia.
Defined.

(** C10, as stated, fails: the configuration may ask for [minLookback],
    whose product with the milliseconds of an hour wraps around to zero;
    the cutoff is then now itself, and a package published at that instant
    is sent to the scanner. *)
Lemma min_lookback_cutoff_is_now :
  ~ (forall now h,
        Int64.InRange now -> Int64.InRange h -> h < 0 ->
        now < computeCutoff now h)
  /\ @startup minLookbackRuntime accepting []
     = (Ready (mkConfig "key" "-9223372036854775808" "lodash" accepting)
          minLookback "52 */-9223372036854775808 * * *",
        [EvLog (LogInitialised "lodash")])
  /\ computeCutoff 1000 minLookback = 1000
  /\ sentOf (snd (@cycle minLookbackRuntime (watcher accepting)
                    minLookback 1000 []))
     = ["b"].
Proof.
  split; [|split; [|split]].
  - intros H.
    assert (Hlt : 1000 < computeCutoff 1000 minLookback).
    { apply H.
      - unfold Int64.InRange, Int64.min_int, Int64.max_int. lia.
      - unfold Int64.InRange, Int64.min_int, Int64.max_int, minLookback. lia.
      - unfold minLookback. lia. }
    vm_compute in Hlt. discriminate Hlt.
  - vm_compute. reflexivity.
  - reflexivity.
  - vm_compute. reflexivity.
Qed.

(** * Further properties *)

(** ** The walk over the fetched list *)

Lemma triageWalk_In (packages : list Package) (cutoff : Z) (p : Package) :
  In p (triageWalk packages cutoff) -> In p packages.
Proof.
  induction packages as [|p0 rest IH]; [contradiction|].
  rewrite triageWalk_cons.
  destruct (loopStep p0 cutoff); [contradiction | right; auto |].
  intros [Heq | Hin]; [left; exact Heq | right; auto].
Qed.

Lemma triageWalk_length (packages : list Package) (cutoff : Z) :
  (List.length (triageWalk packages cutoff) <= List.length packages)%nat.
Proof.
  induction packages as [|p rest IH]; [apply Nat.le_refl|].
  rewrite triageWalk_cons.
  destruct (loopStep p cutoff); simpl; lia.
Qed.

Lemma inWindow_Send (p : Package) (cutoff : Z) :
  inWindow cutoff p = true <-> loopStep p cutoff = Send.
Proof.
  rewrite loopStep_Send. unfold inWindow.
  rewrite andb_true_iff, negb_true_iff, Z.leb_le. tauto.
Qed.

Lemma Descending_inv (p : Package) (rest : list Package) :
  Descending (p :: rest) ->
  Descending rest
  /\ forall q, In q rest -> TS (PackageDate q) <= TS (PackageDate p).
Proof.
  intros Hd. apply Sorted_StronglySorted in Hd.
  - apply StronglySorted_inv in Hd. destruct Hd as [Hrest Hall].
    split; [now apply StronglySorted_Sorted|].
    intros q Hin. rewrite Forall_forall in Hall. now apply Hall.
  - intros a b c Hab Hbc. lia.
Qed.

(** X1. When no record is older than the cutoff, the walk selects every
    unscoped record, duplicates included, and nothing else, in order. *)
Theorem walk_of_recent_list :
  forall (packages : list Package) (cutoff : Z),
    (forall p, In p packages -> cutoff <= TS (PackageDate p)) ->
    triageWalk packages cutoff = filter (fun p => negb (IsScoped p)) packages.
Proof.
  induction packages as [|p rest IH]; intros cutoff Hrecent.
  - reflexivity.
  - rewrite triageWalk_cons. simpl.
    assert (Hp : cutoff <= TS (PackageDate p)) by (apply Hrecent; now left).
    assert (Hrest : triageWalk rest cutoff
                    = filter (fun p => negb (IsScoped p)) rest)
      by (apply IH; intros q Hq; apply Hrecent; now right).
    destruct (IsScoped p) eqn:Hs; simpl.
    + assert (Hstep : loopStep p cutoff = Continue)
        by (apply loopStep_Continue; auto).
      now rewrite Hstep.
    + assert (Hstep : loopStep p cutoff = Send)
        by (apply loopStep_Send; auto).
      now rewrite Hstep, Hrest.
Qed.

(** X2. On a list in descending order of timestamps, stopping at the
    first record older than the cutoff loses nothing: the walk selects
    exactly the unscoped records published at or after the cutoff. *)
Theorem walk_of_descending_list :
  forall (packages : list Package) (cutoff : Z),
    Descending packages ->
    triageWalk packages cutoff = filter (inWindow cutoff) packages.
Proof.
  induction packages as [|p rest IH]; intros cutoff Hd.
  - reflexivity.
  - apply Descending_inv in Hd. destruct Hd as [Hrest Hbelow].
    rewrite triageWalk_cons. simpl.
    destruct (loopStep p cutoff) eqn:Hstep.
    + apply loopStep_Break in Hstep.
      assert (Hp : inWindow cutoff p = false).
      { unfold inWindow. destruct (Z.leb_spec cutoff (TS (PackageDate p)));
          [lia | reflexivity]. }
      rewrite Hp. symmetry.
      assert (Hnone : forall q, In q rest -> inWindow cutoff q = false).
      { intros q Hq. specialize (Hbelow q Hq). unfold inWindow.
        destruct (Z.leb_spec cutoff (TS (PackageDate q)));
          [lia | reflexivity]. }
      clear - Hnone. induction rest as [|q rest IHr]; [reflexivity|].
      simpl. rewrite (Hnone q) by now left.
      apply IHr. intros q' Hq'. apply Hnone. now right.
    + assert (Hp : inWindow cutoff p = false).
      { destruct (inWindow cutoff p) eqn:Hw; [|reflexivity].
        apply inWindow_Send in Hw. congruence. }
      rewrite Hp. now apply IH.
    + assert (Hp : inWindow cutoff p = true) by now apply inWindow_Send.
      rewrite Hp. f_equal. now apply IH.
Qed.

(** X3. Moving the cutoff back in time only adds to the end of the
    selection: the walk for the later cutoff is a prefix of the walk for the
    earlier one. *)
Theorem walk_grows_with_lookback :
  forall (packages : list Package) (earlier later : Z),
    earlier <= later ->
    exists more,
      triageWalk packages earlier = triageWalk packages later ++ more.
Proof.
  induction packages as [|p rest IH]; intros earlier later Hle.
  - exists []. reflexivity.
  - rewrite !triageWalk_cons.
    destruct (IH earlier later Hle) as (more & Hmore).
    destruct (loopStep p later) eqn:Hlater.
    + eexists. reflexivity.
    + apply loopStep_Continue in Hlater.
      assert (He : loopStep p earlier = Continue)
        by (apply loopStep_Continue; split; [lia | tauto]).
      rewrite He. now exists more.
    + apply loopStep_Send in Hlater.
      assert (He : loopStep p earlier = Send)
        by (apply loopStep_Send; split; [lia | tauto]).
      rewrite He. exists more. simpl. now rewrite Hmore.
Qed.

Lemma walk_of_recent_list_witness :
  triageWalk (firstn 2 Fixture.walkScenario) 60 = [Fixture.pkg "b" 90].
Proof.
  rewrite walk_of_recent_list; [reflexivity|].
  intros p [Hp | [Hp | []]]; subst p; simpl; lia.
Defined.

Lemma walk_of_descending_list_witness :
  triageWalk Fixture.walkScenario 60 = [Fixture.pkg "b" 90].
Proof.
  rewrite walk_of_descending_list; [reflexivity|].
  unfold Descending, Fixture.walkScenario.
  repeat constructor; simpl; lia.
Defined.

Lemma walk_grows_with_lookback_witness :
  exists more,
    triageWalk Fixture.xyz 15 = triageWalk Fixture.xyz 25 ++ more.
Proof. apply walk_grows_with_lookback. lia. Defined.

(** ** One dispatch, in full *)

Section DispatchOutcomes.

Context {rt : Runtime}.

(** X4. A dispatch succeeds exactly when its request could be built, the
    client answered it with status 200 and did not end at the path /login;
    it has then handed the client that one request and logged the package
    as sent, and done nothing else. *)
Theorem dispatch_succeeds_iff :
  forall (c : Config) (n : string) (w w' : World),
    sendToScanner c n w = (None, w') <->
    exists q res,
      scannerRequest c n = Some q
      /\ Client c w q = inr res
      /\ StatusCode res = StatusOK
      /\ Path (ReqURL (ResRequest res)) <> "/login"
      /\ w' = w ++ [EvDo q; EvLog (LogSentToScanner n)].
Proof.
  intros c n w w'. unfold sendToScanner, scannerRequest.
  destruct (http_NewRequest "GET" (scannerURL ++ n)) as [err|req]; run.
  { split; [discriminate|]. intros (q & res & Hq & _). discriminate Hq. }
  set (q0 := Header_Add (Header_Add req "accept" "application/json")
               "authorization" (ApiKey c)).
  destruct (Client c w q0) as [err|res] eqn:Hdo.
  { split; [discriminate|].
    intros (q & res & Hq & Hres & _). inversion Hq; subst q. congruence. }
  destruct (Z.eqb_spec (StatusCode res) StatusOK) as [Hok|Hbad]; simpl.
  2:{ split; [discriminate|].
      intros (q & res' & Hq & Hres & Hok & _). inversion Hq; subst q.
      congruence. }
  destruct (String.eqb_spec (Path (ReqURL (ResRequest res))) "/login")
    as [Hlogin|Hother].
  { split; [discriminate|].
    intros (q & res' & Hq & Hres & _ & Hpath & _). inversion Hq; subst q.
    congruence. }
  rewrite <- app_assoc. simpl. split.
  - intros H; inversion H; subst. exists q0, res. auto.
  - intros (q & res' & Hq & _ & _ & _ & ->). now inversion Hq.
Qed.

(** X5. A dispatch that fails has logged nothing. Either its request could
    not be built and the client was not called at all, or the client was
    handed that one request and the error tells what came back: no answer,
    a status other than 200, or status 200 at the path /login. *)
Theorem dispatch_failure_cases :
  forall (c : Config) (n : string) (w w' : World) (e : error),
    sendToScanner c n w = (Some e, w') ->
    (exists err,
        http_NewRequest "GET" (scannerURL ++ n)%string = inl err
        /\ e = ErrCreatingRequest n err
        /\ w' = w)
    \/ (exists q,
          scannerRequest c n = Some q
          /\ w' = w ++ [EvDo q]
          /\ ((exists err,
                  Client c w q = inl err /\ e = ErrSendingToScanner n err)
              \/ (exists res,
                    Client c w q = inr res
                    /\ ((StatusCode res <> StatusOK
                         /\ e = ErrUnexpectedStatus (StatusCode res)
                                  (URL_String (ReqURL (ResRequest res))))
                        \/ (StatusCode res = StatusOK
                            /\ Path (ReqURL (ResRequest res)) = "/login"
                            /\ e = ErrLoginRedirect))))).
Proof.
  intros c n w w' e. unfold sendToScanner, scannerRequest.
  destruct (http_NewRequest "GET" (scannerURL ++ n)) as [err|req]; run.
  { intros H; inversion H; subst. left. eauto. }
  set (q0 := Header_Add (Header_Add req "accept" "application/json")
               "authorization" (ApiKey c)).
  intros H. right. exists q0.
  destruct (Client c w q0) as [err|res] eqn:Hdo.
  { inversion H; subst. repeat split. left. eauto. }
  destruct (Z.eqb_spec (StatusCode res) StatusOK) as [Hok|Hbad]; simpl in H.
  2:{ inversion H; subst. repeat split. right. exists res. auto. }
  destruct (String.eqb_spec (Path (ReqURL (ResRequest res))) "/login")
    as [Hlogin|Hother].
  - inversion H; subst. repeat split. right. exists res. auto.
  - discriminate H.
Qed.

(** X6. Whatever the loop returns, the requests it has handed to the
    client are those of names of listed records published at or after the
    cutoff, at most one per record of the list. *)
Theorem loop_requests_are_listed :
  forall (c : Config) (packages : list Package) (cutoff : Z) (w w' : World)
         (r : option error),
    triageLoop c packages cutoff w = (r, w') ->
    exists attempted,
      requestsOf w' = requestsOf w ++ scannerRequests c attempted
      /\ (List.length attempted <= List.length packages)%nat
      /\ Forall (fun n => exists p,
                     In p packages /\ Name p = n
                     /\ cutoff <= TS (PackageDate p))
           attempted.
Proof.
  intros c packages cutoff w w' r Hrun.
  rewrite triageLoop_dispatchInOrder in Hrun.
  apply dispatchInOrder_trace in Hrun.
  destruct Hrun as (attempted & rest & Heq & Hr & _).
  exists attempted. split; [exact Hr|]. split.
  - pose proof (triageWalk_length packages cutoff) as Hlen.
    rewrite <- (length_map Name), Heq, length_app in Hlen. lia.
  - apply Forall_forall. intros n Hin.
    assert (Hn : In n (map Name (triageWalk packages cutoff)))
      by (rewrite Heq; apply in_or_app; now left).
    apply in_map_iff in Hn. destruct Hn as (p & Hname & Hp).
    exists p. split; [now apply triageWalk_In in Hp|].
    split; [exact Hname|]. now apply triageWalk_unscoped in Hp.
Qed.

End DispatchOutcomes.

Lemma dispatch_failure_cases_witness :
  snd (@sendToScanner (listing []) (watcher Fixture.failingOnY) "y" [])
  = [EvDo (mkRequest "GET"
             (mkURL "https" "dprk-research.kmsec.uk"
                "/api/scanner/analyse/package/y")
             [("accept", "application/json"); ("authorization", "key")])].
Proof.
  destruct (@dispatch_failure_cases (listing []) (watcher Fixture.failingOnY)
              "y" [] _ _ eq_refl)
    as [(err & Hreq & _) | (q & Hq & Hw & _)].
  - discriminate Hreq.
  - reflexivity.
Defined.

Lemma loop_requests_are_listed_witness :
  exists attempted,
    (List.length attempted <= 3)%nat
    /\ requestsOf (snd (@triageLoop (listing Fixture.xyz)
                          (watcher Fixture.failingOnY) Fixture.xyz 5 []))
       = @scannerRequests (listing Fixture.xyz) (watcher Fixture.failingOnY)
           attempted.
Proof.
  destruct (@loop_requests_are_listed (listing Fixture.xyz)
              (watcher Fixture.failingOnY) Fixture.xyz 5 [] _ _ eq_refl)
    as (attempted & Hr & Hlen & _).
  exists attempted. split; [exact Hlen | exact Hr].
Defined.

(** ** The cycle as a whole *)

Section CycleOutcomes.

Context {rt : Runtime}.




Lemma fetchDependents_success (c : Config) (w w1 : World)
  (packages : list Package) :
  fetchDependents c w = (inr packages, w1) -> packages <> [].
Proof.
  intros H. apply fetchDependents_spec in H.
  destruct H as [H | (err & _ & Hr & _)]; [|discriminate].
  inversion H; subst. assumption.
Qed.


(** X8. A cycle that ends in Done has fetched a list that is not empty,
    and the names it has logged as sent are exactly the names of the
    selection from that list, in order. *)
Theorem done_cycle_sent_the_selection :
  forall (c : Config) (interval now : Z) (w w' : World),
    cycle c interval now w = (Done, w') ->
    exists packages w1,
      fetchDependents c
        (w ++ [EvLog (LogNowCutoff now (computeCutoff now interval))])
      = (inr packages, w1)
      /\ packages <> []
      /\ sentOf w' = sentOf w
                     ++ map Name (selectForScan packages
                                    (computeCutoff now interval)).
Proof.
  intros c interval now w w'. rewrite cycle_run. cbv zeta.
  rewrite triageDependencies_run.
  destruct (fetchDependents c _) as [[e|packages] w1] eqn:Hfetch;
    [discriminate|].
  destruct (triageLoop c packages _ w1) as [err w2] eqn:Hloop.
  intros H; inversion H; subst.
  match goal with Hd : cycleEnd _ = Done |- _ =>
    apply cycleEnd_Done in Hd; subst err end.
  exists packages, w1. split; [reflexivity|].
  split; [eapply fetchDependents_success; eauto|].
  rewrite triageLoop_dispatchInOrder in Hloop.
  apply dispatchInOrder_None, AllDispatched_trace in Hloop.
  destruct Hloop as [Hs _]. rewrite Hs, triageWalk_selectForScan.
  apply fetchDependents_trace in Hfetch. destruct Hfetch as [Hs1 _].
  rewrite Hs1, sentOf_app. simpl. now rewrite app_nil_r.
Qed.

(** X9. A cycle that ends in Failed failed in one of two ways: the fetch
    returned the error and the world is the one the fetch left; or the
    fetch succeeded and the error is that of the first dispatch to fail,
    every selected name before it having been dispatched. *)
Theorem failed_cycle_cases :
  forall (c : Config) (interval now : Z) (w w' : World) (e : error),
    cycle c interval now w = (Failed e, w') ->
    fetchDependents c
      (w ++ [EvLog (LogNowCutoff now (computeCutoff now interval))])
    = (inl e, w')
    \/ exists packages w1 pre n post w2,
         fetchDependents c
           (w ++ [EvLog (LogNowCutoff now (computeCutoff now interval))])
         = (inr packages, w1)
         /\ map Name (triageWalk packages (computeCutoff now interval))
            = pre ++ n :: post
         /\ AllDispatched c pre w1 w2
         /\ sendToScanner c n w2 = (Some e, w').
Proof.
  intros c interval now w w' e. rewrite cycle_run. cbv zeta.
  rewrite triageDependencies_run.
  destruct (fetchDependents c _) as [[e0|packages] w1] eqn:Hfetch.
  - intros H; inversion H; subst. now left.
  - destruct (triageLoop c packages _ w1) as [err w2] eqn:Hloop.
    intros H; inversion H; subst.
    match goal with Hd : cycleEnd _ = Failed _ |- _ =>
      apply cycleEnd_Failed in Hd; subst err end.
    rewrite triageLoop_dispatchInOrder in Hloop.
    apply dispatchInOrder_Some in Hloop.
    destruct Hloop as (pre & n & post & w3 & Heq & Hall & Hfail).
    right. exists packages, w1, pre, n, post, w3. auto.
Qed.

End CycleOutcomes.

(** ** Cycles do not depend on one another *)





Section Stateless.

Context {rt : Runtime}.





End Stateless.

(** ** Concrete runs of whole cycles *)


Lemma done_cycle_sent_the_selection_witness :
  sentOf (snd (@cycle (listing Fixture.walkScenario) (watcher accepting)
                 1 3600060 []))
  = ["b"].
Proof.
  destruct (@done_cycle_sent_the_selection (listing Fixture.walkScenario)
              (watcher accepting) 1 3600060 [] _ eq_refl)
    as (packages & w1 & Hfetch & _ & Hsent).
  vm_compute in Hfetch. inversion Hfetch; subst packages.
  exact Hsent.
Defined.

(** The registry answering with status 503: the first way to fail. *)
Lemma failed_cycle_cases_witness :
  exists w',
    @fetchDependents (listing Fixture.xyz) (watcher unavailable)
      [EvLog (LogNowCutoff 3600005 (computeCutoff 3600005 1))]
    = (inl (ErrUnexpectedStatus 503
              "https://www.npmjs.com/browse/depended/lodash"), w').
Proof.
  destruct (@failed_cycle_cases (listing Fixture.xyz) (watcher unavailable)
              1 3600005 [] _ _ eq_refl)
    as [Hfetch | (packages & w1 & pre & n & post & w2 & Hfetch & _)].
  - eexists. exact Hfetch.
  - vm_compute in Hfetch. discriminate Hfetch.
Defined.


(** ** The cutoff, for every input *)

Lemma wrap_range (z : Z) : Int64.InRange (Int64.wrap z).
Proof.
  unfold Int64.InRange, Int64.min_int, Int64.max_int, Int64.wrap.
  assert (Hm : 2 ^ 64 = 2 * 2 ^ 63) by reflexivity.
  pose proof (Z.mod_pos_bound (z + 2 ^ 63) (2 ^ 64) ltac:(lia)) as Hb.
  lia.
Qed.

(** X11. Whatever now and the lookback are, the cutoff is an [int64], and
    it differs from now - h x 3,600,000 by a multiple of 2^64: an overflow
    shifts the cutoff by whole turns of the 64-bit range and nothing else. *)
Theorem cutoff_is_congruent :
  forall now h : Z,
    Int64.InRange (computeCutoff now h)
    /\ exists k, computeCutoff now h = now - h * 3600000 + k * 2 ^ 64.
Proof.
  intros now h. rewrite computeCutoff_wrap. split; [apply wrap_range|].
  unfold Int64.wrap.
  exists (- ((now - 3600000 * h + 2 ^ 63) / 2 ^ 64)).
  pose proof (Z.div_mod (now - 3600000 * h + 2 ^ 63) (2 ^ 64) ltac:(lia)) as Hd.
  lia.
Qed.

(** X12. For a time now at or after the epoch, every lookback from zero up
    to [maxExactLookback] hours gives the exact cutoff, which is not after
    now; the bound cannot be raised: at the epoch itself the next lookback
    wraps around. *)
Theorem cutoff_exact_after_epoch :
  (forall now h : Z,
      0 <= now -> Int64.InRange now ->
      0 <= h <= maxExactLookback ->
      computeCutoff now h = now - h * 3600000
      /\ computeCutoff now h <= now)
  /\ computeCutoff 0 (maxExactLookback + 1)
     <> 0 - (maxExactLookback + 1) * 3600000.
Proof.
  split.
  - intros now h Hnow Hr Hh.
    rewrite computeCutoff_exact; [lia|].
    unfold Int64.InRange, Int64.min_int, Int64.max_int, maxExactLookback in *.
    lia.
  - vm_compute. discriminate.
Qed.

Lemma cutoff_exact_after_epoch_witness :
  computeCutoff 1700000000000 maxExactLookback = -9223370336854000000.
Proof.
  refine (proj1 (proj1 cutoff_exact_after_epoch 1700000000000
                   maxExactLookback _ _ _)).
  - lia.
  - unfold Int64.InRange, Int64.min_int, Int64.max_int. lia.
  - unfold maxExactLookback. lia.
Defined.

(** ** Configuration and startup *)

Section Startup.

Context {rt : Runtime}.

(** X13. [LoadConfig] fails in five ways, tried in this order: the file at
    the one path it reads (the secrets path when DOCKER is set to anything,
    the working directory otherwise) cannot be read; its content does not
    decode; the key is empty; the key is there and the interval is empty;
    both are there and the target is empty. There is no fallback from one
    path to the other. *)
Theorem LoadConfig_failure_cases :
  forall e : error,
    LoadConfig = inl e ->
    (exists err,
        os_ReadFile (if negb (os_Getenv "DOCKER" =? "")%string
                     then "/var/run/secrets/.config" else ".config") = inl err
        /\ e = ErrReadingConfig err)
    \/ exists b,
         os_ReadFile (if negb (os_Getenv "DOCKER" =? "")%string
                      then "/var/run/secrets/.config" else ".config") = inr b
         /\ ((exists err,
                 json_UnmarshalConfig b = inl err
                 /\ e = ErrUnmarshallingConfig err)
             \/ exists f,
                  json_UnmarshalConfig b = inr f
                  /\ ((FileApiKey f = "" /\ e = ErrApiKeyNotSet)
                      \/ (FileApiKey f <> "" /\ FileIntervalHrs f = ""
                          /\ e = ErrIntervalNotSet)
                      \/ (FileApiKey f <> "" /\ FileIntervalHrs f <> ""
                          /\ FileTarget f = "" /\ e = ErrTargetNotSet))).
Proof.
  intros e. unfold LoadConfig.
  destruct (os_ReadFile _) as [err|b]; [intros H; inversion H; eauto|].
  intros H. right. exists b. split; [reflexivity|].
  destruct (json_UnmarshalConfig b) as [err|f];
    [inversion H; left; eauto|].
  right. exists f. split; [reflexivity|].
  destruct (String.eqb_spec (FileApiKey f) "") as [Ha|Ha];
    [inversion H; auto|].
  destruct (String.eqb_spec (FileIntervalHrs f) "") as [Hi|Hi];
    [inversion H; auto|].
  destruct (String.eqb_spec (FileTarget f) "") as [Ht|Ht];
    [inversion H; auto 6 | discriminate H].
Qed.

(** X14. Startup never calls the client. When it gets ready, the
    configuration it holds has the key, the interval and the target that
    [LoadConfig] returned, none of them empty, and the client it was given; the interval is what the
    interval string parses to, the schedule is built from that string as
    it is written, and one line has been logged. When it stops, either
    [LoadConfig] failed and nothing was logged, or the interval did not
    parse, which is found out after the line has been logged. *)
Theorem startup_outcomes :
  forall (client : HTTPClient) (w w' : World) (s : Startup),
    startup client w = (s, w') ->
    requestsOf w' = requestsOf w
    /\ match s with
       | Ready c interval schedule =>
           LoadConfig = inr (mkConfigFile (ApiKey c) (IntervalHrs c) (Target c))
           /\ ApiKey c <> "" /\ IntervalHrs c <> "" /\ Target c <> ""
           /\ Client c = client
           /\ strconv_ParseInt (IntervalHrs c) = inr interval
           /\ schedule = ("52 */" ++ IntervalHrs c ++ " * * *")%string
           /\ w' = w ++ [EvLog (LogInitialised (Target c))]
       | Fatal e =>
           (LoadConfig = inl e /\ w' = w)
           \/ exists f err,
                LoadConfig = inr f
                /\ strconv_ParseInt (FileIntervalHrs f) = inl err
                /\ e = ErrLibrary err
                /\ w' = w ++ [EvLog (LogInitialised (FileTarget f))]
       end.
Proof.
  intros client w w' s. unfold startup.
  destruct LoadConfig as [e|f] eqn:Hload; run.
  - intros H; inversion H; subst. auto.
  - assert (Hf : FileApiKey f <> "" /\ FileIntervalHrs f <> ""
                 /\ FileTarget f <> "").
    { unfold LoadConfig in Hload.
      destruct (os_ReadFile _) as [err|b]; [discriminate|].
      destruct (json_UnmarshalConfig b) as [err|f0]; [discriminate|].
      destruct (String.eqb_spec (FileApiKey f0) ""); [discriminate|].
      destruct (String.eqb_spec (FileIntervalHrs f0) ""); [discriminate|].
      destruct (String.eqb_spec (FileTarget f0) ""); [discriminate|].
      inversion Hload; subst. auto. }
    destruct (strconv_ParseInt (FileIntervalHrs f)) as [err|interval] eqn:Hp;
      intros H; inversion H; subst;
      (split; [rewrite requestsOf_app; simpl; now rewrite app_nil_r|]).
    + right. exists f, err. auto.
    + simpl. destruct f as [key hrs target]. simpl in *. tauto.
Qed.

End Startup.

(** A file without a key and without an interval: the key is the one
    reported missing. *)
Lemma LoadConfig_failure_cases_witness :
  @LoadConfig (Fixture.runtime (Fixture.decodeAs "lodash" []) keylessFile)
  = inl ErrApiKeyNotSet.
Proof.
  destruct (@LoadConfig_failure_cases
              (Fixture.runtime (Fixture.decodeAs "lodash" []) keylessFile)
              _ eq_refl)
    as [(err & Hread & _) | (b & _ & _)].
  - discriminate Hread.
  - reflexivity.
Defined.

(** An interval that is a word: startup stops after its line is logged. *)
Lemma startup_outcomes_witness :
  snd (@startup (Fixture.runtime (Fixture.decodeAs "lodash" []) wordyFile)
         accepting [])
  = [EvLog (LogInitialised "lodash")].
Proof.
  destruct (@startup_outcomes
              (Fixture.runtime (Fixture.decodeAs "lodash" []) wordyFile)
              accepting [] _ _ eq_refl)
    as [_ [[Hload _] | (f & err & _ & _ & _ & Hw)]].
  - discriminate Hload.
  - reflexivity.
Defined.

(** ** What the requests of a cycle carry *)

Section Requests.

Context {rt : Runtime}.

Lemma scannerRequests_In (c : Config) (names : list string) (q : Request) :
  In q (scannerRequests c names) ->
  exists n, In n names /\ scannerRequest c n = Some q.
Proof.
  unfold scannerRequests. rewrite in_flat_map.
  intros (n & Hn & Hq). exists n. split; [exact Hn|].
  destruct (scannerRequest c n) as [q0|]; [|contradiction].
  destruct Hq as [-> | []]. reflexivity.
Qed.

(** The requests of a cycle: nothing, or the request of the fetch followed
    by the requests of some dispatches. *)
Lemma cycle_requests (c : Config) (interval now : Z) (w w' : World)
  (r : CycleEnd) :
  cycle c interval now w = (r, w') ->
  requestsOf w' = requestsOf w
  \/ exists req attempted,
       http_NewRequest "GET" (dependedURL ++ Target c)%string = inr req
       /\ requestsOf w'
          = requestsOf w ++ dependedRequest req :: scannerRequests c attempted.
Proof.
  rewrite cycle_run. cbv zeta. rewrite triageDependencies_run.
  set (cutoff := computeCutoff now interval).
  set (w0 := w ++ [EvLog (LogNowCutoff now cutoff)]).
  assert (Hw0 : requestsOf w0 = requestsOf w)
    by (unfold w0; rewrite requestsOf_app; simpl; now rewrite app_nil_r).
  destruct (fetchDependents c w0) as [[e|packages] w1] eqn:Hfetch.
  - intros H; inversion H; subst.
    apply fetchDependents_trace in Hfetch.
    destruct Hfetch as [_ [Hr | (req & Hreq & Hr)]]; rewrite Hw0 in Hr.
    + now left.
    + right. exists req, []. now split.
  - destruct (triageLoop c packages cutoff w1) as [err w2] eqn:Hloop.
    intros H; inversion H; subst. right.
    apply fetchDependents_spec in Hfetch.
    destruct Hfetch as [Hs | (err' & _ & Hr & _)]; [|discriminate].
    assert (Hreg : exists req,
               http_NewRequest "GET" (dependedURL ++ Target c)%string = inr req
               /\ requestsOf w1 = requestsOf w0 ++ [dependedRequest req]).
    { inversion Hs; subst; exists req;
        (split; [assumption|]);
        rewrite requestsOf_app; simpl; reflexivity. }
    destruct Hreg as (req & Hreq & Hreg).
    rewrite triageLoop_dispatchInOrder in Hloop.
    apply dispatchInOrder_trace in Hloop.
    destruct Hloop as (attempted & rest & _ & Hr & _).
    exists req, attempted. split; [exact Hreq|].
    rewrite Hr, Hreg, Hw0, <- app_assoc. reflexivity.
Qed.

(** X15. Every request a cycle hands to the client is the one request to
    the registry, built for the target and given the three headers accept,
    x-spiferack and user-agent, or a request to the scanner, built for a
    package name and given the two headers accept and authorization, the
    latter holding the API key. The key is added to no other request. *)
Theorem cycle_request_headers :
  forall (c : Config) (interval now : Z) (w w' : World) (r : CycleEnd)
         (q : Request),
    cycle c interval now w = (r, w') ->
    In q (requestsOf w') ->
    In q (requestsOf w)
    \/ (exists req,
          http_NewRequest "GET" (dependedURL ++ Target c)%string = inr req
          /\ Method q = Method req /\ ReqURL q = ReqURL req
          /\ Header q = Header req
                        ++ [("accept", "application/json");
                            ("x-spiferack", "1");
                            ("user-agent", "dprk-hunter (dependencies)")])
    \/ (exists n req,
          http_NewRequest "GET" (scannerURL ++ n)%string = inr req
          /\ Method q = Method req /\ ReqURL q = ReqURL req
          /\ Header q = Header req
                        ++ [("accept", "application/json");
                            ("authorization", ApiKey c)]).
Proof.
  intros c interval now w w' r q Hrun Hin.
  apply cycle_requests in Hrun.
  destruct Hrun as [Hr | (req & attempted & Hreq & Hr)]; rewrite Hr in Hin.
  - now left.
  - apply in_app_or in Hin. destruct Hin as [Hin | [Hq | Hin]].
    + now left.
    + right. left. exists req. subst q. split; [exact Hreq|].
      unfold dependedRequest, Header_Add. simpl.
      rewrite <- !app_assoc. auto.
    + right. right. apply scannerRequests_In in Hin.
      destruct Hin as (n & _ & Hq). unfold scannerRequest in Hq.
      destruct (http_NewRequest "GET" (scannerURL ++ n)) as [err|req0] eqn:Hn;
        [discriminate|].
      inversion Hq; subst q. exists n, req0. split; [exact Hn|].
      unfold Header_Add. simpl. rewrite <- !app_assoc. auto.
Qed.

End Requests.

(** In the scenario of the walk no request leaves without headers. *)
Lemma cycle_request_headers_witness :
  Forall (fun q => Header q <> [])
    (requestsOf (snd (@cycle (listing Fixture.walkScenario)
                        (watcher accepting) 1 3600060 []))).
Proof.
  apply Forall_forall. intros q Hin.
  destruct (@cycle_request_headers (listing Fixture.walkScenario)
              (watcher accepting) 1 3600060 [] _ _ q eq_refl Hin)
    as [[] | [(req & _ & _ & _ & Hh) | (n & req & _ & _ & _ & Hh)]];
    rewrite Hh; intros Hnil; apply app_eq_nil in Hnil;
    destruct Hnil as [_ Hnil]; discriminate Hnil.
Defined.

(** ** Cycles that find nothing to send *)

Section Quiet.

Context {rt : Runtime}.

(** X16. After a fetch that succeeded, the cycle ends in Done leaving the
    world as the fetch left it, calling the scanner not once, exactly when
    the selection from the fetched list is empty. *)
Theorem quiet_cycle_iff_empty_selection :
  forall (c : Config) (interval now : Z) (w w1 : World)
         (packages : list Package),
    fetchDependents c
      (w ++ [EvLog (LogNowCutoff now (computeCutoff now interval))])
    = (inr packages, w1) ->
    (selectForScan packages (computeCutoff now interval) = []
     <-> cycle c interval now w = (Done, w1)).
Proof.
  intros c interval now w w1 packages Hfetch.
  rewrite cycle_run. cbv zeta.
  rewrite triageDependencies_run, Hfetch, triageLoop_dispatchInOrder.
  rewrite triageWalk_selectForScan. split.
  - intros Hsel. now rewrite Hsel.
  - destruct (dispatchInOrder c _ w1) as [err w2] eqn:Hrun.
    intros H; inversion H; subst.
    match goal with Hd : cycleEnd _ = Done |- _ =>
      apply cycleEnd_Done in Hd; subst err end.
    apply dispatchInOrder_None, AllDispatched_trace in Hrun.
    destruct Hrun as [Hs _].
    rewrite <- (app_nil_r (sentOf w1)) in Hs at 1.
    apply app_inv_head in Hs. symmetry in Hs.
    now apply map_eq_nil in Hs.
Qed.

End Quiet.

(** Every record fetched is older than the cutoff. *)
Lemma quiet_cycle_iff_empty_selection_witness :
  fst (@cycle (listing scopedOldScenario) (watcher accepting) 1 3600150 [])
  = Done
  /\ requestsOf (snd (@cycle (listing scopedOldScenario) (watcher accepting)
                        1 3600150 []))
     = requestsOf (snd (@fetchDependents (listing scopedOldScenario)
                          (watcher accepting)
                          [EvLog (LogNowCutoff 3600150 150)])).
Proof.
  pose (w1 := snd (@fetchDependents (listing scopedOldScenario)
                     (watcher accepting) [EvLog (LogNowCutoff 3600150 150)])).
  assert (Hrun : @cycle (listing scopedOldScenario) (watcher accepting)
                   1 3600150 [] = (Done, w1)).
  { apply (@quiet_cycle_iff_empty_selection (listing scopedOldScenario)
             (watcher accepting) 1 3600150 [] w1 scopedOldScenario).
    - reflexivity.
    - reflexivity. }
  rewrite Hrun. split; reflexivity.
Defined.
